(** * wapi: a WhatsApp gateway over HTTP, shallow embedding of its server

    The repository holds several variants of one Express server built on the
    Baileys client library:
    - [src/unnamed/part_000], lines 75-475: the full server (QR pairing,
      sent-message tracking, webhook relay, Postgres persistence);
    - [src/unnamed/part_001], lines 68-269: the same server on the
      multi-file auth state;
    - [src/index.js]: the pairing-code variant;
    - [src/unnamed/part_000], lines 476-572: the multi-number variant.

    Handlers are modelled as functions from the state they read to the state
    they leave and the effects they request (engine calls, HTTP requests,
    timers).  Node runs every handler to its next [await] without
    interruption, so each synchronous stretch is one function application.
    Console output is kept only where it is the sole trace of a failure. *)

From Stdlib Require Import ZArith Ascii String List Bool.
From stdpp Require Import base decidable countable gmap strings.

Local Open Scope string_scope.

(** ** JavaScript values and strings *)

Module JS.

(** The values a JSON request body or an engine event field can carry here.
    Numbers are restricted to integers of magnitude below 10^21, which
    [String] prints digit by digit; objects and arrays do not occur in the
    fields the modelled handlers read. *)
Inductive jsval : Type :=
  | JUndefined
  | JNull
  | JBool (b : bool)
  | JNum (z : Z)
  | JStr (s : string).

#[global] Instance jsval_eq_dec : EqDecision jsval.
Proof. solve_decision. Defined.

Definition jsval_encode (v : jsval) : bool + (bool + (Z + string)) :=
  match v with
  | JUndefined => inl false
  | JNull => inl true
  | JBool b => inr (inl b)
  | JNum z => inr (inr (inl z))
  | JStr s => inr (inr (inr s))
  end.

Definition jsval_decode (x : bool + (bool + (Z + string))) : jsval :=
  match x with
  | inl false => JUndefined
  | inl true => JNull
  | inr (inl b) => JBool b
  | inr (inr (inl z)) => JNum z
  | inr (inr (inr s)) => JStr s
  end.

#[global] Instance jsval_countable : Countable jsval.
Proof.
  apply (inj_countable' jsval_encode jsval_decode).
  intros []; reflexivity.
Defined.

(** ToBoolean: what [if (v)], [!v] and [v && ...] test. *)
Definition truthy (v : jsval) : bool :=
  match v with
  | JUndefined | JNull => false
  | JBool b => b
  | JNum z => negb (z =? 0)%Z
  | JStr s => negb (String.eqb s "")
  end.

(** [a || b] on values. *)
Definition js_or (a b : jsval) : jsval := if truthy a then a else b.

(** Decimal digits of a natural number, most significant first. *)
Fixpoint digits_of_N (fuel : nat) (n : N) (acc : string) : string :=
  match fuel with
  | O => acc
  | S fuel' =>
      let acc' := String (ascii_of_N (48 + n mod 10)) acc in
      if (n / 10 =? 0)%N then acc' else digits_of_N fuel' (n / 10) acc'
  end.

Definition string_of_Z (z : Z) : string :=
  let n := Z.to_N (Z.abs z) in
  let d := digits_of_N (S (N.size_nat n)) n "" in
  if (z <? 0)%Z then String "-" d else d.

(** [String(v)]. *)
Definition js_String (v : jsval) : string :=
  match v with
  | JUndefined => "undefined"
  | JNull => "null"
  | JBool true => "true"
  | JBool false => "false"
  | JNum z => string_of_Z z
  | JStr s => s
  end.

(** White space as [String.prototype.trim] sees it, among the code units a
    [string] of this development can hold (one byte per unit): TAB, LF, VT,
    FF, CR, SP and NBSP. *)
Definition is_space (c : ascii) : bool :=
  let n := nat_of_ascii c in
  ((9 <=? n) && (n <=? 13) || (n =? 32) || (n =? 160))%nat.

(** [\d]. *)
Definition is_digit (c : ascii) : bool :=
  let n := nat_of_ascii c in ((48 <=? n) && (n <=? 57))%nat.

Fixpoint trim_start (s : string) : string :=
  match s with
  | EmptyString => EmptyString
  | String c r => if is_space c then trim_start r else s
  end.

Fixpoint trim_end (s : string) : string :=
  match s with
  | EmptyString => EmptyString
  | String c r =>
      match trim_end r with
      | EmptyString => if is_space c then EmptyString else String c EmptyString
      | r' => String c r'
      end
  end.

(** [s.trim()]. *)
Definition trim (s : string) : string := trim_end (trim_start s).

(** [s.includes(c)] for a one-character needle. *)
Fixpoint includes (c : ascii) (s : string) : bool :=
  match s with
  | EmptyString => false
  | String d r => Ascii.eqb d c || includes c r
  end.

(** [s.replace(/\D/g, '')]. *)
Fixpoint only_digits (s : string) : string :=
  match s with
  | EmptyString => EmptyString
  | String c r => if is_digit c then String c (only_digits r) else only_digits r
  end.

(** [s.startsWith(p)]. *)
Fixpoint starts_with (p s : string) : bool :=
  match p, s with
  | EmptyString, _ => true
  | String a p', String b s' => Ascii.eqb a b && starts_with p' s'
  | String _ _, EmptyString => false
  end.

(** [s.split(',').pop()]: what follows the last comma, or all of [s]. *)
Fixpoint after_last_comma (s : string) : string :=
  match s with
  | EmptyString => EmptyString
  | String c r =>
      if includes "," r then after_last_comma r
      else if Ascii.eqb c "," then r else s
  end.

End JS.

Import JS.

(** ** Destination normalisation *)

(** [toJid] of the full server ([src/unnamed/part_000], lines 175-181, and
    [src/unnamed/part_001], lines 130-135).  [jidNormalizedUser] belongs to
    the Baileys library and is taken as a parameter. *)
Section ToJid.

Variable jidNormalizedUser : string -> string.

Definition toJid (numberOrJid : jsval) : string :=
  let raw := trim (js_String numberOrJid) in
  if includes "@" raw then jidNormalizedUser raw
  else only_digits raw +:+ "@s.whatsapp.net".

End ToJid.

(** [toJid] of the multi-number variant ([src/unnamed/part_000], lines
    494-497): digits only, no address pass-through. *)
Definition toJid_digits (number : jsval) : string :=
  only_digits (js_String number) +:+ "@s.whatsapp.net".

(** ** Shared vocabulary: effects requested from the outside world *)

(** The connection status strings of the engine. *)
Inductive conn : Type := Connecting | Open | Close.

#[global] Instance conn_eq_dec : EqDecision conn.
Proof. solve_decision. Defined.

(** Media handed to the engine: decoded from the request or downloaded;
    [NoMedia] is the [buffer] variable left unassigned. *)
Inductive media : Type :=
  | NoMedia
  | FromBase64 (data : string)
  | FromUrl (bytes : string).

(** The content object given to [sock.sendMessage]. *)
Inductive out_content : Type :=
  | CText (text : jsval)
  | CImage (buffer : media) (caption mimetype : jsval)
  | CVideo (buffer : media) (caption mimetype : jsval)
  | CDocument (buffer : media) (caption mimetype : jsval).

(** An inbound message as the engine hands it to [messages.upsert].  The
    [message] object is kept as the list of its entries, in key order. *)
Record msg_key : Type := {
  k_remoteJid : option string;
  k_id : option string;
  k_fromMe : option bool
}.

Inductive body_part : Type :=
  | Conversation (text : string)
  | ExtendedTextMessage (text : option string)
  | ImageMessage (caption : option string)
  | VideoMessage (caption : option string)
  | OtherPart (name : string).

Record inbound : Type := {
  i_key : option msg_key;
  i_pushName : option string;
  i_messageTimestamp : option Z;
  i_timestamp : option Z;
  i_message : option (list body_part)
}.

(** The payload [serializeMessage] builds for the webhook. *)
Inductive env_content : Type :=
  | NoContent
  | TextContent (text : string)
  | CaptionContent (caption : option string).

Record envelope : Type := {
  e_id : string;
  e_jid : string;
  e_fromMe : bool;
  e_pushName : string;
  e_timestamp : Z;
  e_type : string;
  e_content : env_content
}.

(** The JSON body of a webhook POST: the envelope, or in [src/index.js] the
    message as received. *)
Inductive payload : Type :=
  | Serialized (e : envelope)
  | Raw (m : inbound).

Inductive callback : Type := InitSocket.

Inductive effect : Type :=
  | EngineSend (to : string) (content : out_content)
  | HttpGet (url : jsval)
  | HttpPost (url : string) (body : payload)
  | SetTimeout (cb : callback) (ms : Z)
  | SaveCreds
  | ReadSession
  | DbUpsert (id blob : string)
  | ConsoleError (text : string).

(** What an awaited call into the outside world comes back with. *)
Inductive send_result : Type :=
  | SendFails (message : string)
  | SendOk (key_id : option jsval).

Inductive fetch_result : Type :=
  | FetchFails (message : string)
  | FetchResp (ok : bool) (status : Z) (body : string).

(** The external collaborators of the server. *)
Record collaborators : Type := {
  jidNormalizedUser : string -> string;
  sock_sendMessage : string -> out_content -> send_result;
  fetch : jsval -> fetch_result;
  QRCode_toDataURL : string -> option string
}.

(** ** Module-level state of the full server *)

(** An entry of [sentStore]: [{ type, payload }]. *)
Inductive outbound : Type :=
  | OText (to : string) (message : jsval)
  | OViewOnce (to : string) (caption : jsval).

Record connection_state : Type := {
  authenticated : bool;
  connection : conn
}.

Record server : Type := {
  connectionState : connection_state;
  latestQRDataURL : option string;
  sentStore : gmap jsval outbound;
  deleteOnDelivery : gset jsval
}.

(** The state at module load ([src/unnamed/part_000], lines 164-173). *)
Definition initial_server : server :=
  {| connectionState := {| authenticated := false; connection := Close |};
     latestQRDataURL := None;
     sentStore := ∅;
     deleteOnDelivery := ∅ |}.

Definition set_connectionState (cs : connection_state) (s : server) : server :=
  {| connectionState := cs;
     latestQRDataURL := latestQRDataURL s;
     sentStore := sentStore s;
     deleteOnDelivery := deleteOnDelivery s |}.

Definition set_latestQRDataURL (q : option string) (s : server) : server :=
  {| connectionState := connectionState s;
     latestQRDataURL := q;
     sentStore := sentStore s;
     deleteOnDelivery := deleteOnDelivery s |}.

Definition set_sentStore (m : gmap jsval outbound) (s : server) : server :=
  {| connectionState := connectionState s;
     latestQRDataURL := latestQRDataURL s;
     sentStore := m;
     deleteOnDelivery := deleteOnDelivery s |}.

Definition set_deleteOnDelivery (d : gset jsval) (s : server) : server :=
  {| connectionState := connectionState s;
     latestQRDataURL := latestQRDataURL s;
     sentStore := sentStore s;
     deleteOnDelivery := d |}.

(** ** Connection manager *)

(** A [connection.update] event.  [statusCode] flattens the chain
    [lastDisconnect?.error?.output?.statusCode]; [qr] is the [qr] field of
    the full server and the [pairingCode] field of [src/index.js]. *)
Record update : Type := {
  u_connection : option conn;
  u_statusCode : option Z;
  u_qr : option string
}.

Definition string_truthy (o : option string) : option string :=
  match o with
  | Some s => if String.eqb s "" then None else Some s
  | None => None
  end.

(** [(lastDisconnect?.error)?.output?.statusCode !== 401]. *)
Definition shouldReconnect (u : update) : bool :=
  negb (bool_decide (u_statusCode u = Some 401%Z)).

Definition set_authenticated (b : bool) (s : server) : server :=
  set_connectionState
    {| authenticated := b; connection := connection (connectionState s) |} s.

Definition set_connection (c : conn) (s : server) : server :=
  set_connectionState
    {| authenticated := authenticated (connectionState s); connection := c |} s.

(** The part of the handler under [if (connection) { ... }]. *)
Definition on_connection (u : update) (s : server) : server * list effect :=
  match u_connection u with
  | None => (s, [])
  | Some c =>
      let s1 := set_connection c s in
      match c with
      | Open => (set_authenticated true s1, [])
      | Close =>
          (set_authenticated false s1,
           if shouldReconnect u then [SetTimeout InitSocket 2000] else [])
      | Connecting => (s1, [])
      end
  end.

(** The [connection.update] handler ([src/unnamed/part_000], lines 211-231;
    [src/unnamed/part_001], lines 168-187; [src/index.js], lines 85-105 with
    [render := Some]).  [render] is the awaited rendering of the artifact;
    when it rejects, the handler stops before it has written anything, and
    nothing catches the rejection.  The handler is taken here from the
    emission of the update to its end: in the full server this supposes
    that the rendering settles before the engine emits the next update
    ([Rendering], below, keeps the two stretches apart); the handler of
    [src/index.js] has no [await]. *)
Definition on_connection_update (render : string -> option string)
    (s : server) (u : update) : server * list effect :=
  match string_truthy (u_qr u) with
  | Some qr =>
      match render qr with
      | Some url =>
          on_connection u
            (set_connection Connecting
               (set_authenticated false (set_latestQRDataURL (Some url) s)))
      | None => (s, [])
      end
  | None => on_connection u s
  end.

(** The body of [GET /auth]: [{ authenticated: true, connection }] or
    [{ authenticated: false, qr }]. *)
Inductive auth_body : Type :=
  | AuthOpen (c : conn)
  | AuthPending (qr : option string).

(** [GET /auth] ([src/unnamed/part_000], lines 301-314). *)
Definition get_auth (s : server) : auth_body :=
  if authenticated (connectionState s)
  then AuthOpen (connection (connectionState s))
  else AuthPending (latestQRDataURL s).

(** [GET /checkAuth]. *)
Definition get_checkAuth (s : server) : bool * conn :=
  (authenticated (connectionState s), connection (connectionState s)).

(** The process around the handlers: pending timers and the number of
    sockets [initSocket] has created so far. *)
Record process : Type := {
  srv : server;
  timers : list (callback * Z);
  sockets : nat
}.

Definition timers_of (l : list effect) : list (callback * Z) :=
  flat_map (fun e => match e with SetTimeout cb ms => [(cb, ms)] | _ => [] end) l.

(** The engine delivers a [connection.update] to the registered handler. *)
Definition deliver (render : string -> option string) (p : process)
    (u : update) : process :=
  let '(s', l) := on_connection_update render (srv p) u in
  {| srv := s'; timers := (timers p ++ timers_of l)%list; sockets := sockets p |}.

(** The oldest pending timer fires: [initSocket] builds a fresh socket. *)
Definition fire (p : process) : process :=
  match timers p with
  | [] => p
  | (InitSocket, _) :: rest =>
      {| srv := srv p; timers := rest; sockets := S (sockets p) |}
  end.

(** The server as it is once [initSocket().then(...)] has run. *)
Definition boot : process :=
  {| srv := initial_server; timers := []; sockets := 1 |}.

Definition run_updates (render : string -> option string)
    (s : server) (us : list update) : server :=
  fold_left (fun s u => fst (on_connection_update render s u)) us s.

(** ** Outbound message tracker *)

(** One element of a [messages.update] batch: [u.key?.id] and
    [u.update?.status]. *)
Record status_update : Type := {
  su_id : jsval;
  su_status : jsval
}.

(** [status === 3 || status === 4]: delivered to device, or read. *)
Definition qualifying (status : jsval) : bool :=
  bool_decide (status = JNum 3) || bool_decide (status = JNum 4).

(** The loop body of the [messages.update] handler
    ([src/unnamed/part_000], lines 257-266; [src/unnamed/part_001], lines
    210-218). *)
Definition on_status_update (s : server) (u : status_update) : server :=
  let id := su_id u in
  if truthy id && bool_decide (id ∈ deleteOnDelivery s) && qualifying (su_status u)
  then set_deleteOnDelivery (deleteOnDelivery s ∖ {[id]})
         (set_sentStore (delete id (sentStore s)) s)
  else s.

Definition on_messages_update (s : server) (updates : list status_update) : server :=
  fold_left on_status_update updates s.

(** ** HTTP handlers *)

(** What a handler can throw: an error of a collaborator, carrying its
    message, or a [TypeError] raised by the runtime. *)
Inductive exn : Type :=
  | Failure (message : string)
  | TypeError.

Inductive response : Type :=
  | BadRequest (error : string)
  | ServerError (e : exn)
  | Sent (id : jsval) (to : string)
  | Deleted (removed : bool).

Definition status_of (r : response) : Z :=
  match r with
  | BadRequest _ => 400
  | ServerError _ => 500
  | Sent _ _ | Deleted _ => 200
  end.

Inductive outcome (A : Type) : Type :=
  | Value (a : A)
  | Thrown (e : exn).

Arguments Value {A} a.
Arguments Thrown {A} e.

(** A handler body: reads and writes the module state, requests effects,
    and either yields a value or throws. *)
Definition H (A : Type) : Type := server -> outcome A * server * list effect.

Definition ret {A : Type} (a : A) : H A := fun s => (Value a, s, []).

Definition throw {A : Type} (e : exn) : H A := fun s => (Thrown e, s, []).

Definition hbind {A B : Type} (m : H A) (k : A -> H B) : H B :=
  fun s =>
    match m s with
    | (Value a, s1, l1) =>
        let '(o, s2, l2) := k a s1 in (o, s2, (l1 ++ l2)%list)
    | (Thrown e, s1, l1) => (Thrown e, s1, l1)
    end.

Notation "x <- m ;; k" := (hbind m (fun x => k))
  (at level 100, m at next level, right associativity).

Definition modify (f : server -> server) : H unit :=
  fun s => (Value tt, f s, []).

(** [await sock.sendMessage(to, content)], then [result?.key]. *)
Definition await_send (E : collaborators) (to : string) (content : out_content)
    : H (option jsval) :=
  fun s =>
    match sock_sendMessage E to content with
    | SendFails m => (Thrown (Failure m), s, [EngineSend to content])
    | SendOk k => (Value k, s, [EngineSend to content])
    end.

(** [await fetch(url)]. *)
Definition await_fetch (E : collaborators) (url : jsval) : H (bool * Z * string) :=
  fun s =>
    match fetch E url with
    | FetchFails m => (Thrown (Failure m), s, [HttpGet url])
    | FetchResp ok status body => (Value (ok, status, body), s, [HttpGet url])
    end.

(** [try { ... } catch (e) { res.status(500).json({ error: e.message }) }]. *)
Definition handle (h : H response) (s : server) : response * server * list effect :=
  match h s with
  | (Value r, s', l) => (r, s', l)
  | (Thrown e, s', l) => (ServerError e, s', l)
  end.

Record send_body : Type := {
  b_number : jsval;
  b_jid : jsval;
  b_message : jsval;
  b_delete : jsval
}.

(** [req.body || {}]. *)
Definition or_empty_send (body : option send_body) : send_body :=
  match body with
  | Some b => b
  | None => {| b_number := JUndefined; b_jid := JUndefined;
               b_message := JUndefined; b_delete := JUndefined |}
  end.

(** [POST /sendMessage] of the full server ([src/unnamed/part_000], lines
    321-334). *)
Definition post_sendMessage (E : collaborators) (body : option send_body)
    : server -> response * server * list effect :=
  handle (
    let b := or_empty_send body in
    if negb (truthy (b_message b))
       || (negb (truthy (b_number b)) && negb (truthy (b_jid b)))
    then ret (BadRequest "number/jid and message are required")
    else
      let to := if truthy (b_jid b)
                then toJid (jidNormalizedUser E) (b_jid b)
                else toJid (jidNormalizedUser E) (b_number b) in
      key_id <- await_send E to (CText (b_message b)) ;;
      let id := default JUndefined key_id in
      _ <- modify (fun s =>
             set_sentStore (<[id := OText to (b_message b)]> (sentStore s)) s) ;;
      _ <- (if truthy (b_delete b)
            then modify (fun s =>
                   set_deleteOnDelivery ({[id]} ∪ deleteOnDelivery s) s)
            else ret tt) ;;
      ret (Sent id to)).

(** [POST /sendMessage] of the pairing-code variant ([src/index.js], lines
    142-150).  The body is destructured without a default, [number] must be
    a string for [number.replace], and [result.key.id] is read without
    optional chaining. *)
Definition post_sendMessage_pairing (E : collaborators) (body : option send_body)
    : server -> response * server * list effect :=
  handle (
    match body with
    | None => throw TypeError
    | Some b =>
        if negb (truthy (b_number b)) || negb (truthy (b_message b))
        then ret (BadRequest "number and message required")
        else
          match b_number b with
          | JStr number =>
              let jid := jidNormalizedUser E
                           (only_digits number +:+ "@s.whatsapp.net") in
              key_id <- await_send E jid (CText (b_message b)) ;;
              match key_id with
              | Some id => ret (Sent id jid)
              | None => throw TypeError
              end
          | _ => throw TypeError
          end
    end).

(** [POST /delete] ([src/unnamed/part_000], lines 395-405); the argument is
    [messageId] of [req.body || {}]. *)
Definition post_delete (messageId : jsval)
    : server -> response * server * list effect :=
  handle (
    if negb (truthy messageId)
    then ret (BadRequest "messageId required")
    else
      fun s =>
        let existed := bool_decide (is_Some (sentStore s !! messageId)) in
        (Value (Deleted existed),
         set_deleteOnDelivery (deleteOnDelivery s ∖ {[messageId]})
           (set_sentStore (delete messageId (sentStore s)) s),
         [])).

Record media_body : Type := {
  m_number : jsval;
  m_jid : jsval;
  m_caption : jsval;
  m_mediaUrl : jsval;
  m_mediaBase64 : jsval;
  m_mimetype : jsval;
  m_delete : jsval
}.

Definition or_empty_media (body : option media_body) : media_body :=
  match body with
  | Some b => b
  | None => {| m_number := JUndefined; m_jid := JUndefined;
               m_caption := JUndefined; m_mediaUrl := JUndefined;
               m_mediaBase64 := JUndefined; m_mimetype := JUndefined;
               m_delete := JUndefined |}
  end.

(** [(mimetype || '').startsWith(prefix)]; a truthy value that is not a
    string has no [startsWith]. *)
Definition mime_starts_with (prefix : string) (mimetype : jsval) : H bool :=
  match js_or mimetype (JStr "") with
  | JStr m => ret (starts_with prefix m)
  | _ => throw TypeError
  end.

(** The buffer of [POST /sendViewOnceMedia], or the early 400 of a failed
    download. *)
Definition load_media (E : collaborators) (b : media_body)
    : H (media + response) :=
  if truthy (m_mediaBase64 b)
  then
    match m_mediaBase64 b with
    | JStr data => ret (inl (FromBase64 (after_last_comma data)))
    | _ => throw TypeError
    end
  else if truthy (m_mediaUrl b)
  then
    r <- await_fetch E (m_mediaUrl b) ;;
    let '(ok, status, bytes) := r in
    if negb ok
    then ret (inr (BadRequest ("Failed to fetch media: " +:+ string_of_Z status)))
    else ret (inl (FromUrl bytes))
  else ret (inl NoMedia).

(** [POST /sendViewOnceMedia] ([src/unnamed/part_000], lines 408-440).  The
    handler never reads [delete] from the body. *)
Definition post_sendViewOnceMedia (E : collaborators) (body : option media_body)
    : server -> response * server * list effect :=
  handle (
    let b := or_empty_media body in
    if (negb (truthy (m_mediaUrl b)) && negb (truthy (m_mediaBase64 b)))
       || (negb (truthy (m_number b)) && negb (truthy (m_jid b)))
    then ret (BadRequest "number/jid and media are required")
    else
      let to := if truthy (m_jid b)
                then toJid (jidNormalizedUser E) (m_jid b)
                else toJid (jidNormalizedUser E) (m_number b) in
      loaded <- load_media E b ;;
      match loaded with
      | inr early => ret early
      | inl buffer =>
          isImage <- mime_starts_with "image/" (m_mimetype b) ;;
          isVideo <- mime_starts_with "video/" (m_mimetype b) ;;
          let content :=
            if isImage then CImage buffer (m_caption b) (m_mimetype b)
            else if isVideo then CVideo buffer (m_caption b) (m_mimetype b)
            else CDocument buffer (m_caption b) (m_mimetype b) in
          key_id <- await_send E to content ;;
          let id := default JUndefined key_id in
          _ <- modify (fun s =>
                 set_sentStore (<[id := OViewOnce to (m_caption b)]> (sentStore s)) s) ;;
          ret (Sent id to)
      end).

(** ** Inbound relay *)

(** [!!msg.key?.fromMe]. *)
Definition fromMe (m : inbound) : bool :=
  match i_key m with
  | Some k => default false (k_fromMe k)
  | None => false
  end.

Definition part_name (p : body_part) : string :=
  match p with
  | Conversation _ => "conversation"
  | ExtendedTextMessage _ => "extendedTextMessage"
  | ImageMessage _ => "imageMessage"
  | VideoMessage _ => "videoMessage"
  | OtherPart name => name
  end.

Fixpoint conversation_of (parts : list body_part) : option string :=
  match parts with
  | [] => None
  | Conversation t :: _ => Some t
  | _ :: rest => conversation_of rest
  end.

Fixpoint extended_text_of (parts : list body_part) : option string :=
  match parts with
  | [] => None
  | ExtendedTextMessage t :: _ => t
  | _ :: rest => extended_text_of rest
  end.

Fixpoint image_of (parts : list body_part) : option (option string) :=
  match parts with
  | [] => None
  | ImageMessage c :: _ => Some c
  | _ :: rest => image_of rest
  end.

Fixpoint video_of (parts : list body_part) : option (option string) :=
  match parts with
  | [] => None
  | VideoMessage c :: _ => Some c
  | _ :: rest => video_of rest
  end.

Definition num_truthy (o : option Z) : option Z :=
  match o with
  | Some z => if (z =? 0)%Z then None else Some z
  | None => None
  end.

(** [serializeMessage] ([src/unnamed/part_000], lines 272-291); [now] is
    [Date.now()]. *)
Definition serializeMessage (now : Z) (msg : inbound) : envelope :=
  let parts := default [] (i_message msg) in
  {| e_id := default "" (i_key msg ≫= k_id);
     e_jid := default "" (i_key msg ≫= k_remoteJid);
     e_fromMe := fromMe msg;
     e_pushName := default "" (i_pushName msg);
     e_timestamp :=
       match num_truthy (i_messageTimestamp msg) with
       | Some t => t
       | None => default now (num_truthy (i_timestamp msg))
       end;
     e_type :=
       match parts with
       | p :: _ => if String.eqb (part_name p) "" then "unknown" else part_name p
       | [] => "unknown"
       end;
     e_content :=
       match string_truthy (conversation_of parts) with
       | Some t => TextContent t
       | None =>
           match string_truthy (extended_text_of parts) with
           | Some t => TextContent t
           | None =>
               match image_of parts with
               | Some c => CaptionContent (string_truthy c)
               | None =>
                   match video_of parts with
                   | Some c => CaptionContent (string_truthy c)
                   | None => NoContent
                   end
               end
           end
       end |}.

(** One turn of the loop of the [messages.upsert] handler
    ([src/unnamed/part_000], lines 236-252; [src/unnamed/part_001], lines
    192-206).  [answer] is what the webhook does with the POST; the handler
    assigns to no variable of the server. *)
Definition relay_one (WEBHOOK_URL : string) (now : Z)
    (answer : payload -> fetch_result) (msg : inbound) : list effect :=
  if fromMe msg then []
  else if String.eqb WEBHOOK_URL "" then []
  else
    let body := Serialized (serializeMessage now msg) in
    HttpPost WEBHOOK_URL body ::
    match answer body with
    | FetchFails m => [ConsoleError m]
    | FetchResp true _ _ => []
    | FetchResp false status _ => [ConsoleError ("Webhook " +:+ string_of_Z status)]
    end.

(** The same turn in [src/index.js], lines 110-122: the message goes out as
    received and the response status is not looked at. *)
Definition relay_one_pairing (WEBHOOK_URL : string)
    (answer : payload -> fetch_result) (msg : inbound) : list effect :=
  if fromMe msg then []
  else if String.eqb WEBHOOK_URL "" then []
  else
    HttpPost WEBHOOK_URL (Raw msg) ::
    match answer (Raw msg) with
    | FetchFails m => [ConsoleError m]
    | FetchResp _ _ _ => []
    end.

(** The [messages.upsert] handler over [m.messages || []]: the effects of
    each message in turn, and the server state it leaves. *)
Definition on_messages_upsert (WEBHOOK_URL : string) (now : Z)
    (answer : payload -> fetch_result) (s : server) (msgs : list inbound)
    : server * list (list effect) :=
  (s, map (relay_one WEBHOOK_URL now answer) msgs).

(** The [messages.upsert] handler of [src/index.js], lines 108-123. *)
Definition on_messages_upsert_pairing (WEBHOOK_URL : string)
    (answer : payload -> fetch_result) (s : server) (msgs : list inbound)
    : server * list (list effect) :=
  (s, map (relay_one_pairing WEBHOOK_URL answer) msgs).

Definition is_post (e : effect) : bool :=
  match e with HttpPost _ _ => true | _ => false end.

Definition posts (l : list effect) : nat := length (filter is_post l).

(** ** Credential persistence *)

(** What the outside world does during one [creds.update]: whether the
    local write succeeds, what reading the local copy back gives (nothing
    when it throws), the serialized in-memory state, and whether the
    database accepts the query. *)
Record creds_env : Type := {
  save_ok : bool;
  read_back : option string;
  state_json : string;
  db_ok : bool
}.

(** [saveSessionToDB] ([src/unnamed/part_000], lines 137-144): nothing
    without a pool.  The second component tells whether the call returned
    normally. *)
Definition saveSessionToDB (pool : bool) (env : creds_env) (blob : string)
    : list effect * bool :=
  if negb pool then ([], true)
  else ([DbUpsert "session" blob], db_ok env).

(** [saveStateAndDB] of the full server ([src/unnamed/part_000], lines
    190-198). *)
Definition saveStateAndDB (pool : bool) (env : creds_env) : list effect :=
  let failed := [ConsoleError "[Auth save error]"] in
  SaveCreds ::
  if save_ok env then
    ReadSession ::
    match read_back env with
    | Some blob =>
        let '(l, ok) := saveSessionToDB pool env blob in
        (l ++ if ok then [] else failed)%list
    | None => failed
    end
  else failed.

(** The [creds.update] handler of [src/index.js], lines 78-83: the same
    steps, nothing caught. *)
Definition on_creds_update_pairing (pool : bool) (env : creds_env) : list effect :=
  SaveCreds ::
  if save_ok env then
    ReadSession ::
    match read_back env with
    | Some blob => fst (saveSessionToDB pool env blob)
    | None => []
    end
  else [].

(** The [creds.update] handler of [src/unnamed/part_001], lines 162-166:
    the blob is the serialized in-memory state. *)
Definition on_creds_update_multifile (pool : bool) (env : creds_env) : list effect :=
  SaveCreds ::
  if save_ok env then fst (saveSessionToDB pool env (state_json env)) else [].

Definition is_remote_write (e : effect) : bool :=
  match e with DbUpsert _ _ => true | _ => false end.

Definition remote_writes (l : list effect) : nat :=
  length (filter is_remote_write l).

(** The engine emits one [creds.update] per element of [envs]; each
    invocation of the handler has its own trace. *)
Definition on_creds_updates (pool : bool) (envs : list creds_env)
    : list (list effect) :=
  map (saveStateAndDB pool) envs.

(** ** The multi-number variant *)

Module MultiNumber.

(** An entry of [sessions] ([src/unnamed/part_000], line 492), without the
    socket. *)
Record session : Type := {
  pairingCode : option string;
  s_authenticated : bool;
  s_connection : conn
}.

(** What the handler registered by [getSocketForNumber] closes over. *)
Record closure : Type := {
  number : jsval;
  code : string;
  local : connection_state
}.

Definition snapshot (pc : option string) (cs : connection_state) : session :=
  {| pairingCode := pc;
     s_authenticated := authenticated cs;
     s_connection := connection cs |}.

Definition with_local (cs : connection_state) (c : closure) : closure :=
  {| number := number c; code := code c; local := cs |}.

(** The [connection.update] handler ([src/unnamed/part_000], lines
    518-533). *)
Definition on_connection_update (c : closure) (sessions : gmap jsval session)
    (u : update) : closure * gmap jsval session :=
  let cs1 := {| authenticated := authenticated (local c);
                connection := default (connection (local c)) (u_connection u) |} in
  let '(cs2, ss2) :=
    match string_truthy (u_qr u) with
    | Some _ =>
        let cs := {| authenticated := false; connection := connection cs1 |} in
        (cs, <[number c := snapshot (Some (code c)) cs]> sessions)
    | None => (cs1, sessions)
    end in
  match u_connection u with
  | Some Open =>
      let cs := {| authenticated := true; connection := connection cs2 |} in
      (with_local cs c, <[number c := snapshot None cs]> ss2)
  | Some Close =>
      (with_local {| authenticated := false; connection := connection cs2 |} c, ss2)
  | _ => (with_local cs2 c, ss2)
  end.

End MultiNumber.

(** ** A stand-in for the library's [jidNormalizedUser] *)

(** The library decodes an address at its first [@] into a user part, cut
    at the first [:] or [_], and a server part, and encodes the two again
    with the legacy server [c.us] replaced; an input without [@] gives the
    empty string.  This stand-in instantiates the parameter of [toJid]. *)
Module Library.

Definition ends_user (c : ascii) : bool :=
  Ascii.eqb c "@" || Ascii.eqb c ":" || Ascii.eqb c "_".

Fixpoint user_of (jid : string) : string :=
  match jid with
  | EmptyString => EmptyString
  | String c r => if ends_user c then EmptyString else String c (user_of r)
  end.

Fixpoint server_of (jid : string) : string :=
  match jid with
  | EmptyString => EmptyString
  | String c r => if Ascii.eqb c "@" then r else server_of r
  end.

Definition normalizedUser (jid : string) : string :=
  if includes "@" jid
  then
    let server := server_of jid in
    user_of jid +:+ "@"
      +:+ (if String.eqb server "c.us" then "s.whatsapp.net" else server)
  else "".

Definition engine (send : string -> out_content -> send_result)
    (get : jsval -> fetch_result) : collaborators :=
  {| jidNormalizedUser := normalizedUser;
     sock_sendMessage := send;
     fetch := get;
     QRCode_toDataURL := fun qr => Some ("data:image/png;base64," +:+ qr) |}.

End Library.

(** ** Vocabulary of the properties *)

(** White space neither at the start nor at the end of a string: what
    [trim] establishes. *)
Definition first_ok (s : string) : bool :=
  match s with
  | EmptyString => true
  | String c _ => negb (is_space c)
  end.

Fixpoint last_ok (s : string) : bool :=
  match s with
  | EmptyString => true
  | String c EmptyString => negb (is_space c)
  | String _ r => last_ok r
  end.

(** An address-shaped string: it holds an [@] and has no white space around
    it. *)
Definition qualified (y : string) : Prop :=
  includes "@" y = true /\ trim y = y.

(** A string without [@], [:] and [_]: a user part. *)
Fixpoint plain (s : string) : bool :=
  match s with
  | EmptyString => true
  | String c r => negb (Library.ends_user c) && plain r
  end.

(** The server part the library writes back. *)
Definition normal_server (y : string) : string :=
  if String.eqb (Library.server_of y) "c.us"
  then "s.whatsapp.net" else Library.server_of y.

(** Some update of the batch acknowledges [j] with a qualifying status. *)
Definition acked (updates : list status_update) (j : jsval) : bool :=
  existsb (fun u => bool_decide (su_id u = j) && qualifying (su_status u)) updates.

(** The answer of a handler and the state it leaves. *)
Definition response_of (x : response * server * list effect) : response :=
  fst (fst x).

Definition state_of (x : response * server * list effect) : server :=
  snd (fst x).

(** The step from [before] to [after] took the record of [id] out of the
    sent store. *)
Definition removed_by (before after : server) (id : jsval) : bool :=
  bool_decide (is_Some (sentStore before !! id))
  && negb (bool_decide (is_Some (sentStore after !! id))).

(** How many steps of a run took the record of [id] out. *)
Fixpoint removals (id : jsval) (run : list server) : nat :=
  match run with
  | a :: (b :: _) as rest => (if removed_by a b id then 1 else 0) + removals id rest
  | _ => 0
  end.

(** An engine that accepts every message under one identifier, and a media
    host that serves every address. *)
Definition example_engine : collaborators :=
  Library.engine (fun _ _ => SendOk (Some (JStr "3EB0A1")))
    (fun _ => FetchResp true 200 "bytes").

(** A server holding one armed text record. *)
Definition armed_example : server :=
  set_deleteOnDelivery {[JStr "3EB0A1"]}
    (set_sentStore {[JStr "3EB0A1" := OText "226700000@s.whatsapp.net" (JStr "hi")]}
       initial_server).

(** What holds of the outcome and the state a handler body leaves. *)
Definition wp {A : Type} (h : H A) (Q : outcome A -> server -> Prop) (s : server) : Prop :=
  Q (fst (fst (h s))) (snd (fst (h s))).

(** What [POST /sendViewOnceMedia] leaves behind: the flag set it found,
    and, when it answers with an identifier, the store with that record
    written. *)
Definition viewOnce_post (s : server) (caption : jsval)
    (o : outcome response) (s' : server) : Prop :=
  deleteOnDelivery s' = deleteOnDelivery s
  /\ forall id to, o = Value (Sent id to) ->
       sentStore s' = <[id := OViewOnce to caption]> (sentStore s).

(** The events of the engine. *)
Definition qr_update (qr : string) : update :=
  {| u_connection := None; u_statusCode := None; u_qr := Some qr |}.

Definition connecting_update : update :=
  {| u_connection := Some Connecting; u_statusCode := None; u_qr := None |}.

Definition open_update : update :=
  {| u_connection := Some Open; u_statusCode := None; u_qr := None |}.

Definition close_update (statusCode : option Z) : update :=
  {| u_connection := Some Close; u_statusCode := statusCode; u_qr := None |}.

(** The rendering used in the examples. *)
Definition render_example : string -> option string :=
  QRCode_toDataURL example_engine.

(** The invariant of the connection state. *)
Definition consistent (s : server) : Prop :=
  authenticated (connectionState s) = true -> connection (connectionState s) = Open.

(** An update that reports [connecting] and carries no pairing artifact. *)
Definition bare_connecting (u : update) : bool :=
  bool_decide (u_connection u = Some Connecting)
  && bool_decide (string_truthy (u_qr u) = None).

(** No bare [connecting] update arrives while [authenticated] is true: a
    socket reports [connecting] before it opens, and a new socket is only
    built after the previous one has closed. *)
Fixpoint in_engine_order (render : string -> option string)
    (s : server) (us : list update) : bool :=
  match us with
  | [] => true
  | u :: rest =>
      negb (authenticated (connectionState s) && bare_connecting u)
      && in_engine_order render (fst (on_connection_update render s u)) rest
  end.

(** A text message, the gateway's own or not. *)
Definition inbound_example (mine : bool) : inbound :=
  {| i_key := Some {| k_remoteJid := Some "226700000@s.whatsapp.net";
                      k_id := Some "ABCD"; k_fromMe := Some mine |};
     i_pushName := Some "Awa";
     i_messageTimestamp := Some 1700000000%Z;
     i_timestamp := None;
     i_message := Some [Conversation "salut"] |}.

(** An event during which every step succeeds. *)
Definition creds_ok (blob : string) : creds_env :=
  {| save_ok := true; read_back := Some blob; state_json := blob; db_ok := true |}.

(** ** The operations of the full server, as one transition system *)

(** The destination a send handler computes: [jid ? toJid(jid) : toJid(number)]. *)
Definition destination (E : collaborators) (number jid : jsval) : string :=
  if truthy jid then toJid (jidNormalizedUser E) jid
  else toJid (jidNormalizedUser E) number.

(** What the handler of [POST /sendMessage] leaves when the engine has
    assigned [id]. *)
Definition text_recorded (E : collaborators) (b : send_body) (id : jsval)
    (s : server) : server :=
  let s1 := set_sentStore
              (<[id := OText (destination E (b_number b) (b_jid b)) (b_message b)]>
                 (sentStore s)) s in
  if truthy (b_delete b)
  then set_deleteOnDelivery ({[id]} ∪ deleteOnDelivery s1) s1
  else s1.

Definition is_sent (r : response) : bool :=
  match r with Sent _ _ => true | _ => false end.

Definition is_engine_send (e : effect) : bool :=
  match e with EngineSend _ _ => true | _ => false end.

(** Every armed identifier has a record. *)
Definition armed_are_recorded (s : server) : Prop :=
  forall id, id ∈ deleteOnDelivery s -> is_Some (sentStore s !! id).

(** An engine that refuses every message, and a media host that is down. *)
Definition refusing_engine : collaborators :=
  Library.engine (fun _ _ => SendFails "Connection Closed")
    (fun _ => FetchFails "ENOTFOUND").

(** What can happen to the full server once it runs. *)
Inductive operation : Type :=
  | SendMessage (body : option send_body)
  | SendViewOnceMedia (body : option media_body)
  | DeleteRecord (messageId : jsval)
  | MessagesUpdate (updates : list status_update)
  | ConnectionUpdate (u : update)
  | MessagesUpsert (msgs : list inbound).

Definition perform (E : collaborators) (WEBHOOK_URL : string) (now : Z)
    (answer : payload -> fetch_result) (s : server) (op : operation) : server :=
  match op with
  | SendMessage body => state_of (post_sendMessage E body s)
  | SendViewOnceMedia body => state_of (post_sendViewOnceMedia E body s)
  | DeleteRecord messageId => state_of (post_delete messageId s)
  | MessagesUpdate updates => on_messages_update s updates
  | ConnectionUpdate u => fst (on_connection_update (QRCode_toDataURL E) s u)
  | MessagesUpsert msgs => fst (on_messages_upsert WEBHOOK_URL now answer s msgs)
  end.

Definition perform_all (E : collaborators) (WEBHOOK_URL : string) (now : Z)
    (answer : payload -> fetch_result) (s : server) (ops : list operation) : server :=
  fold_left (perform E WEBHOOK_URL now answer) ops s.

(** A handler either answers with a message identifier or leaves the state
    it found. *)
Definition sent_or_unchanged (s : server) (o : outcome response) (s' : server) : Prop :=
  match o with
  | Value (Sent _ _) => True
  | _ => s' = s
  end.

(** ** Runs of the connection manager *)


(** What an update decides about [authenticated], if anything: an update
    whose artifact fails to render is dropped; a rendered artifact logs the
    server out unless the same update reports [open]; otherwise [open] and
    [close] decide and anything else does not. *)
Definition verdict (render : string -> option string) (u : update) : option bool :=
  match string_truthy (u_qr u) with
  | Some qr =>
      match render qr with
      | Some _ =>
          match u_connection u with
          | Some Open => Some true
          | _ => Some false
          end
      | None => None
      end
  | None =>
      match u_connection u with
      | Some Open => Some true
      | Some Close => Some false
      | _ => None
      end
  end.

(** The update is a disconnect that the handler answers with a reconnect
    timer. *)
Definition reconnecting (render : string -> option string) (u : update) : bool :=
  match string_truthy (u_qr u) with
  | Some qr => bool_decide (is_Some (render qr))
  | None => true
  end
  && bool_decide (u_connection u = Some Close)
  && shouldReconnect u.

Definition deliver_all (render : string -> option string)
    (p : process) (us : list update) : process :=
  fold_left (deliver render) us p.

(** ** Connection updates emitted while an artifact is rendered *)

(** In the full server the handler waits for [QRCode.toDataURL(qr)]
    ([src/unnamed/part_000], line 214; [src/unnamed/part_001], line 170)
    before it writes anything, and the engine may emit further updates
    meanwhile.  [on_connection_update] takes every rendering to settle
    before the next update is emitted; here the two stretches of the
    handler are kept apart. *)
Module Rendering.

(** The module state, the invocations of the handler suspended at the
    [await], each with the artifact it renders and the update it was
    called with, oldest first, and the number of rejected renderings: the
    handler catches none, and what Node does with an unhandled rejection is
    not modelled. *)
Record state : Type := {
  module_state : server;
  suspended : list (string * update);
  unhandled : nat
}.

(** What happens next: the engine emits an update, or the rendering that
    the [k]-th suspended invocation waits for settles. *)
Inductive stretch : Type :=
  | Emit (u : update)
  | Settle (k : nat).

Definition start (s : server) : state :=
  {| module_state := s; suspended := []; unhandled := 0 |}.

(** The handler from the assignment of the awaited value to its end. *)
Definition resume (url : string) (u : update) (s : server) : server * list effect :=
  on_connection u
    (set_connection Connecting
       (set_authenticated false (set_latestQRDataURL (Some url) s))).

Definition step (render : string -> option string) (st : state) (x : stretch)
    : state * list effect :=
  match x with
  | Emit u =>
      match string_truthy (u_qr u) with
      | Some qr =>
          ({| module_state := module_state st;
              suspended := (suspended st ++ [(qr, u)])%list;
              unhandled := unhandled st |}, [])
      | None =>
          let '(s', l) := on_connection u (module_state st) in
          ({| module_state := s'; suspended := suspended st;
              unhandled := unhandled st |}, l)
      end
  | Settle k =>
      match suspended st !! k with
      | None => (st, [])
      | Some (qr, u) =>
          let others := delete k (suspended st) in
          match render qr with
          | Some url =>
              let '(s', l) := resume url u (module_state st) in
              ({| module_state := s'; suspended := others;
                  unhandled := unhandled st |}, l)
          | None =>
              ({| module_state := module_state st; suspended := others;
                  unhandled := S (unhandled st) |}, [])
          end
      end
  end.

Fixpoint run (render : string -> option string) (st : state) (xs : list stretch)
    : state * list effect :=
  match xs with
  | [] => (st, [])
  | x :: rest =>
      let '(st1, l1) := step render st x in
      let '(st2, l2) := run render st1 rest in
      (st2, (l1 ++ l2)%list)
  end.

(** Every rendering settles before the engine emits the next update. *)
Definition turn (u : update) : list stretch :=
  Emit u :: match string_truthy (u_qr u) with
            | Some _ => [Settle 0]
            | None => []
            end.

Definition in_turn (us : list update) : list stretch := flat_map turn us.

End Rendering.

(** The effects [on_connection_update] requests over a run of updates. *)
Fixpoint effects_of_updates (render : string -> option string) (s : server)
    (us : list update) : list effect :=
  match us with
  | [] => []
  | u :: rest =>
      (snd (on_connection_update render s u)
       ++ effects_of_updates render (fst (on_connection_update render s u)) rest)%list
  end.

(** ** The session table and the local session file *)

(** [loadSessionFromDB] ([src/unnamed/part_000], lines 131-135).  [table]
    holds the rows of [whatsapp_state], blob by id; [up] tells whether the
    database answers the query.  The result is [None] when the query
    throws, and otherwise what the function returns: [rows[0]?.blob || null]. *)
Definition loadSessionFromDB (pool up : bool) (table : gmap string string)
    : option (option string) :=
  if negb pool then Some None
  else if up then Some (string_truthy (table !! "session"))
  else None.

(** [bootstrapSessionFile] ([src/unnamed/part_000], lines 147-161) on the
    content of [session.json], [None] when the file does not exist; a
    failure of the query is caught and logged. *)
Definition bootstrapSessionFile (pool up : bool) (table : gmap string string)
    (file : option string) : option string :=
  match loadSessionFromDB pool up table with
  | Some (Some dbBlob) => Some dbBlob
  | Some None =>
      match file with
      | Some content => Some content
      | None => Some "{}"
      end
  | None => file
  end.

(** What a query of the handlers does to the table: the upsert
    [INSERT ... ON CONFLICT (id) DO UPDATE SET blob = EXCLUDED.blob]
    replaces the row of its id. *)
Definition apply_query (table : gmap string string) (e : effect) : gmap string string :=
  match e with
  | DbUpsert id blob => <[id := blob]> table
  | _ => table
  end.

(** The table after one [creds.update] handled by [saveStateAndDB]: its
    queries take effect when the database accepts them. *)
Definition table_after (pool : bool) (table : gmap string string) (env : creds_env)
    : gmap string string :=
  if db_ok env then fold_left apply_query (saveStateAndDB pool env) table
  else table.

Definition table_after_all (pool : bool) (table : gmap string string)
    (envs : list creds_env) : gmap string string :=
  fold_left (table_after pool) envs table.

(** The POSTs among the effects of a handler. *)
Definition posts_of (l : list effect) : list effect := filter is_post l.

(** ** The multi-number variant: sessions, [POST /auth], [GET /checkAuth] *)

Module Sessions.

Import MultiNumber.

(** An open entry is reused; [session.sock] is an object and always
    truthy. *)
Definition reusable (s : session) : bool :=
  bool_decide (s_connection s = Open).

(** [getSocketForNumber] ([src/unnamed/part_000], lines 500-536).  [fresh]
    is the pairing code drawn from [Math.random()].  The result is the
    session returned, the sessions map, and the closure of the handler
    registered on the new socket when one is built. *)
Definition getSocketForNumber (sessions : gmap jsval session) (number : jsval)
    (fresh : string) : session * gmap jsval session * option closure :=
  let create :=
    let cs := {| authenticated := false; connection := Connecting |} in
    (snapshot (Some fresh) cs,
     <[number := snapshot (Some fresh) cs]> sessions,
     Some {| number := number; code := fresh; local := cs |}) in
  match sessions !! number with
  | Some s => if reusable s then (s, sessions, None) else create
  | None => create
  end.

(** The JSON body of the two routes. *)
Inductive answer : Type :=
  | Required
  | Status (number : jsval) (authenticated : bool) (connection : conn)
      (pairingCode : option string)
  | Unknown.

(** [{ number, authenticated, connection, pairingCode: authenticated ? null
    : pairingCode }]. *)
Definition describe (number : jsval) (s : session) : answer :=
  Status number (s_authenticated s) (s_connection s)
    (if s_authenticated s then None else pairingCode s).


(** [GET /checkAuth] ([src/unnamed/part_000], lines 557-570); an unknown
    number gets [{ authenticated: false, connection: 'close' }]. *)
Definition get_checkAuth (sessions : gmap jsval session) (number : jsval) : answer :=
  if negb (truthy number) then Required
  else
    match sessions !! number with
    | None => Unknown
    | Some s => describe number s
    end.

(** The handler of one socket over a run of updates. *)
Definition run (c : closure) (sessions : gmap jsval session) (us : list update)
    : closure * gmap jsval session :=
  fold_left (fun st u => on_connection_update (fst st) (snd st) u) us (c, sessions).

(** An entry that says authenticated says open and holds no pairing code. *)
Definition entry_consistent (s : session) : Prop :=
  s_authenticated s = true -> s_connection s = Open /\ pairingCode s = None.


End Sessions.

(** ** The pairing servers: [waitForConnection] and [POST /pair] *)

Module Pair.

(** How the promise of [waitForConnection] settles. *)
Inductive reason : Type :=
  | SocketNotInitialised
  | RequestFailed (err : string).

Inductive settlement : Type :=
  | Resolved (phoneNumber : jsval)
  | Rejected (why : reason).

(** The [resolved] flag of the closure, whether [handler] is registered on
    [connection.update], and the state of the promise. *)
Record waiting : Type := {
  resolved : bool;
  listening : bool;
  settled : option settlement
}.

(** What the engine does while the request waits: a connection update, or
    the outcome of [sock.requestPairingCode(phoneNumber)]. *)
Inductive event : Type :=
  | ConnectionUpdate (u : update)
  | PairingCodeIssued (code : string)
  | PairingCodeFailed (err : string).

(** [resolve] and [reject] of a promise: the first call settles it. *)
Definition settle (o : settlement) (p : option settlement) : option settlement :=
  match p with
  | None => Some o
  | Some _ => p
  end.

(** The executor of [waitForConnection] ([src/unnamed/part_000], lines
    31-57): without a socket it rejects at once and neither registers the
    handler nor asks for a pairing code.  In [src/unnamed/part_001], lines
    24-50, the socket is a constant and [sock_ready] is true. *)
Definition start (sock_ready : bool) : waiting :=
  if sock_ready
  then {| resolved := false; listening := true; settled := None |}
  else {| resolved := false; listening := false;
          settled := Some (Rejected SocketNotInitialised) |}.

Definition step (phoneNumber : jsval) (w : waiting) (ev : event) : waiting :=
  match ev with
  | ConnectionUpdate u =>
      if listening w
         && bool_decide (u_connection u = Some Open) && negb (resolved w)
      then {| resolved := true; listening := false;
              settled := settle (Resolved phoneNumber) (settled w) |}
      else w
  | PairingCodeIssued _ => w
  | PairingCodeFailed err =>
      if negb (resolved w)
      then {| resolved := true; listening := false;
              settled := settle (Rejected (RequestFailed err)) (settled w) |}
      else w
  end.

Definition run (phoneNumber : jsval) (w : waiting) (evs : list event) : waiting :=
  fold_left (step phoneNumber) evs w.

(** The answers of [POST /pair]: 400, 200 with the phone number, or 500
    with a fixed message. *)
Inductive answer : Type :=
  | NumberRequired
  | Connected (phoneNumber : jsval)
  | CannotConnect.

(** [POST /pair] ([src/unnamed/part_000], lines 60-71) for a body that is
    an object, with the events that follow; [None] while the request is
    still waiting. *)
Definition post_pair (sock_ready : bool) (phoneNumber : jsval) (evs : list event)
    : option answer :=
  if negb (truthy phoneNumber) then Some NumberRequired
  else
    match settled (run phoneNumber (start sock_ready) evs) with
    | Some (Resolved n) => Some (Connected n)
    | Some (Rejected _) => Some CannotConnect
    | None => None
    end.

(** The events that settle the promise. *)
Definition decisive (ev : event) : bool :=
  match ev with
  | ConnectionUpdate u => bool_decide (u_connection u = Some Open)
  | PairingCodeIssued _ => false
  | PairingCodeFailed _ => true
  end.

Definition outcome_of (phoneNumber : jsval) (ev : event) : answer :=
  match ev with
  | PairingCodeFailed _ => CannotConnect
  | _ => Connected phoneNumber
  end.

End Pair.

(** ** Presence: [POST /markOnline] and [POST /markTyping] *)

Module Presence.

Inductive kind : Type := Available | Unavailable | Composing | Paused.

(** The calls into the engine, and the timer that reverts the presence. *)
Inductive call : Type :=
  | Subscribe (to : string)
  | Announce (k : kind) (to : option string).

Inductive request : Type :=
  | Call (c : call)
  | RevertAfter (delay : option Z) (k : kind) (to : option string).

Inductive answer : Type :=
  | Done
  | BadRequest (error : string)
  | ServerError (message : string).

(** [Number(v)]; [None] is [NaN].  The conversion of a string belongs to
    the runtime and is the parameter [parse]. *)
Definition js_Number (parse : string -> option Z) (v : jsval) : option Z :=
  match v with
  | JUndefined => None
  | JNull => Some 0%Z
  | JBool b => Some (if b then 1 else 0)%Z
  | JNum z => Some z
  | JStr s => parse s
  end.

(** The destructuring default [durationSec = d]: only [undefined] takes
    it. *)
Definition or_default (d : Z) (v : jsval) : jsval :=
  match v with
  | JUndefined => JNum d
  | _ => v
  end.

(** [Math.max(0, Number(durationSec) * 1000)]. *)
Definition delay (parse : string -> option Z) (durationSec : jsval) : option Z :=
  (fun z => Z.max 0 (z * 1000)) <$> js_Number parse durationSec.

(** [POST /markOnline] ([src/unnamed/part_000], lines 443-452).  [refuses]
    gives the message of the error with which the engine rejects a call. *)
Definition post_markOnline (refuses : call -> option string)
    (parse : string -> option Z) (durationSec : jsval) : answer * list request :=
  match refuses (Announce Available None) with
  | Some message => (ServerError message, [Call (Announce Available None)])
  | None =>
      (Done,
       [Call (Announce Available None);
        RevertAfter (delay parse (or_default 10 durationSec)) Unavailable None])
  end.

(** [POST /markTyping] ([src/unnamed/part_000], lines 455-467). *)
Definition post_markTyping (E : collaborators) (refuses : call -> option string)
    (parse : string -> option Z) (number jid durationSec : jsval)
    : answer * list request :=
  if negb (truthy number) && negb (truthy jid)
  then (BadRequest "number or jid required", [])
  else
    let to := destination E number jid in
    match refuses (Subscribe to) with
    | Some message => (ServerError message, [Call (Subscribe to)])
    | None =>
        match refuses (Announce Composing (Some to)) with
        | Some message =>
            (ServerError message,
             [Call (Subscribe to); Call (Announce Composing (Some to))])
        | None =>
            (Done,
             [Call (Subscribe to); Call (Announce Composing (Some to));
              RevertAfter (delay parse (or_default 5 durationSec)) Paused (Some to)])
        end
    end.

Definition is_done (a : answer) : bool :=
  match a with Done => true | _ => false end.

Definition is_revert (r : request) : bool :=
  match r with RevertAfter _ _ _ => true | Call _ => false end.

(** The delay of a revert is a number below zero. *)
Definition negative_delay (r : request) : bool :=
  match r with
  | RevertAfter (Some d) _ _ => (d <? 0)%Z
  | _ => false
  end.

End Presence.

(** ** What [POST /sendViewOnceMedia] asks of the outside world *)

(** The mimetype the handler classifies by: [mimetype || '']. *)
Definition mime_of (mimetype : jsval) : string :=
  match js_or mimetype (JStr "") with
  | JStr m => m
  | _ => ""
  end.

(** The content matches the classification by mimetype: image, else video,
    else document, and it carries the request's caption and mimetype. *)
Definition classified (b : media_body) (c : out_content) : bool :=
  match c with
  | CText _ => false
  | CImage _ caption mimetype =>
      starts_with "image/" (mime_of (m_mimetype b))
      && bool_decide (caption = m_caption b) && bool_decide (mimetype = m_mimetype b)
  | CVideo _ caption mimetype =>
      negb (starts_with "image/" (mime_of (m_mimetype b)))
      && starts_with "video/" (mime_of (m_mimetype b))
      && bool_decide (caption = m_caption b) && bool_decide (mimetype = m_mimetype b)
  | CDocument _ caption mimetype =>
      negb (starts_with "image/" (mime_of (m_mimetype b)))
      && negb (starts_with "video/" (mime_of (m_mimetype b)))
      && bool_decide (caption = m_caption b) && bool_decide (mimetype = m_mimetype b)
  end.

(** The buffer of the content is the media the handler loaded: what
    follows the last comma of the request's base64 data when there is
    some, and otherwise the body of the answer to the download of
    [mediaUrl]. *)
Definition sourced (E : collaborators) (b : media_body) (c : out_content) : bool :=
  match c with
  | CText _ => false
  | CImage buffer _ _ | CVideo buffer _ _ | CDocument buffer _ _ =>
      match buffer with
      | FromBase64 data =>
          truthy (m_mediaBase64 b)
          && match m_mediaBase64 b with
             | JStr given => String.eqb data (after_last_comma given)
             | _ => false
             end
      | FromUrl bytes =>
          negb (truthy (m_mediaBase64 b))
          && match fetch E (m_mediaUrl b) with
             | FetchResp true _ body => String.eqb bytes body
             | _ => false
             end
      | NoMedia => false
      end
  end.

(** An effect the handler of [POST /sendViewOnceMedia] may request for the
    body [b]: a download of [mediaUrl] when there is no base64 data, or one
    message to the destination, classified by mimetype. *)
Definition viewOnce_allowed (E : collaborators) (b : media_body) (e : effect) : bool :=
  match e with
  | HttpGet url => negb (truthy (m_mediaBase64 b)) && bool_decide (url = m_mediaUrl b)
  | EngineSend to c =>
      bool_decide (to = destination E (m_number b) (m_jid b))
      && classified b c && sourced E b c
  | _ => false
  end.

(** ** Failures of [saveStateAndDB] *)

Definition is_error_log (e : effect) : bool :=
  match e with ConsoleError _ => true | _ => false end.

(** Every step of one [creds.update] succeeds: the local write, the
    read-back, and the query when there is a pool. *)
Definition all_steps_ok (pool : bool) (env : creds_env) : bool :=
  save_ok env && bool_decide (is_Some (read_back env)) && (negb pool || db_ok env).

(** Proof steps for the effects of [POST /sendViewOnceMedia]. *)
Ltac allowed_effect :=
  cbn -[starts_with toJid destination];
  unfold mime_of;
  repeat match goal with
         | H : m_mediaBase64 _ = _ |- _ => rewrite H
         | H : fetch _ _ = _ |- _ => rewrite H
         | H : truthy _ = _ |- _ => rewrite H
         | H : js_or _ _ = _ |- _ => rewrite H
         | H : starts_with _ _ = _ |- _ => rewrite H
         end;
  cbn -[starts_with toJid destination];
  rewrite ?bool_decide_eq_true_2 by reflexivity;
  rewrite ?String.eqb_refl;
  reflexivity.

Ltac sent_once :=
  let Hsent := fresh "Hsent" in
  intros ? ? Hsent;
  first [ discriminate Hsent
        | injection Hsent as _ <-; split; [reflexivity | vm_compute; reflexivity] ].

Ltac few_effects :=
  unfold ret, throw, modify; cbv beta iota zeta; cbn [fst snd app];
  split; [repeat (apply Forall_cons_2; [allowed_effect|]); apply Forall_nil_2
         |split; [vm_compute; lia | split; [vm_compute; lia | sent_once]]].

Ltac classify_and_send :=
  unfold mime_starts_with;
  match goal with
  | |- context [js_or ?m ?d] => destruct (js_or m d) as [| |x'|z'|mime] eqn:Hmime
  end;
  [few_effects|few_effects|few_effects|few_effects|];
  unfold ret; cbv beta iota zeta;
  match goal with
  | H : js_or _ _ = JStr ?m |- _ =>
      destruct (starts_with "image/" m) eqn:Himg;
      destruct (starts_with "video/" m) eqn:Hvid
  end;
  cbv beta iota zeta; unfold await_send; cbv beta iota zeta;
  match goal with
  | |- context [sock_sendMessage ?e ?to ?c] =>
      destruct (sock_sendMessage e to c) as [m'|key_id] eqn:Hsend
  end;
  few_effects.

(** * Properties *)

(** ** Strings *)

Lemma trim_start_id (s : string) : first_ok s = true -> trim_start s = s.
Proof.
  destruct s as [|c r]; simpl; [reflexivity|].
  destruct (is_space c); [discriminate | reflexivity].
Qed.

Lemma trim_start_first_ok (s : string) : first_ok (trim_start s) = true.
Proof.
  induction s as [|c r IH]; simpl; [reflexivity|].
  destruct (is_space c) eqn:Hc; [exact IH | simpl; rewrite Hc; reflexivity].
Qed.

Lemma trim_end_id (s : string) : last_ok s = true -> trim_end s = s.
Proof.
  induction s as [|c r IH]; simpl; [reflexivity|].
  destruct r as [|d r'].
  - simpl. intros Hc. destruct (is_space c); [discriminate | reflexivity].
  - intros Hr. rewrite (IH Hr). reflexivity.
Qed.

Lemma trim_end_last_ok (s : string) : last_ok (trim_end s) = true.
Proof.
  induction s as [|c r IH]; simpl; [reflexivity|].
  destruct (trim_end r) as [|d r'] eqn:Hr.
  - destruct (is_space c) eqn:Hc; simpl; [reflexivity | rewrite Hc; reflexivity].
  - exact IH.
Qed.

Lemma trim_end_first_ok (s : string) :
  first_ok s = true -> first_ok (trim_end s) = true.
Proof.
  destruct s as [|c r]; simpl; [reflexivity|].
  intros Hc. destruct (trim_end r); [|exact Hc].
  destruct (is_space c) eqn:E; [discriminate | simpl; rewrite E; reflexivity].
Qed.

Lemma trim_fixed (s : string) :
  trim s = s <-> first_ok s = true /\ last_ok s = true.
Proof.
  unfold trim. split.
  - intros <-. split.
    + apply trim_end_first_ok, trim_start_first_ok.
    + apply trim_end_last_ok.
  - intros [Hf Hl]. rewrite (trim_start_id _ Hf). apply trim_end_id, Hl.
Qed.

Lemma trim_trim (s : string) : trim (trim s) = trim s.
Proof.
  apply trim_fixed. split.
  - apply trim_end_first_ok, trim_start_first_ok.
  - apply trim_end_last_ok.
Qed.

Lemma eqb_space (c d : ascii) :
  is_space d = true -> is_space c = false -> Ascii.eqb d c = false.
Proof.
  intros Hd Hc. destruct (Ascii.eqb_spec d c) as [->|]; [congruence | reflexivity].
Qed.

Lemma includes_trim_start (c : ascii) (s : string) :
  is_space c = false -> includes c (trim_start s) = includes c s.
Proof.
  intros Hc. induction s as [|d r IH]; simpl; [reflexivity|].
  destruct (is_space d) eqn:Hd; [|reflexivity].
  rewrite (eqb_space _ _ Hd Hc). exact IH.
Qed.

Lemma includes_trim_end (c : ascii) (s : string) :
  is_space c = false -> includes c (trim_end s) = includes c s.
Proof.
  intros Hc. induction s as [|d r IH]; simpl; [reflexivity|].
  destruct (trim_end r) as [|e r'] eqn:Hr.
  - rewrite <- IH. simpl. destruct (is_space d) eqn:Hd; simpl.
    + rewrite (eqb_space _ _ Hd Hc). reflexivity.
    + reflexivity.
  - rewrite <- IH. reflexivity.
Qed.

Lemma includes_trim (c : ascii) (s : string) :
  is_space c = false -> includes c (trim s) = includes c s.
Proof.
  intros Hc. unfold trim.
  rewrite includes_trim_end, includes_trim_start; auto.
Qed.

Lemma includes_app (c : ascii) (a b : string) :
  includes c (a +:+ b) = includes c a || includes c b.
Proof.
  induction a as [|d r IH]; simpl; [reflexivity|].
  rewrite IH. apply orb_assoc.
Qed.

Lemma last_ok_app (a b : string) :
  b <> "" -> last_ok (a +:+ b) = last_ok b.
Proof.
  intros Hb. induction a as [|c r IH]; simpl; [reflexivity|].
  destruct (r +:+ b) as [|d t] eqn:Hrb; [|exact IH].
  destruct r; simpl in Hrb; [contradiction | discriminate].
Qed.

Lemma digit_not_space (c : ascii) : is_digit c = true -> is_space c = false.
Proof.
  unfold is_digit, is_space. generalize (nat_of_ascii c). intros n H.
  apply andb_true_iff in H as [H1 H2].
  apply Nat.leb_le in H1. apply Nat.leb_le in H2.
  repeat (apply orb_false_iff; split).
  - apply andb_false_iff. right. apply Nat.leb_gt. lia.
  - apply Nat.eqb_neq. lia.
  - apply Nat.eqb_neq. lia.
Qed.

Lemma first_ok_digits (s t : string) :
  first_ok t = true -> first_ok (only_digits s +:+ t) = true.
Proof.
  intros Ht. induction s as [|c r IH]; simpl; [exact Ht|].
  destruct (is_digit c) eqn:Hc; [|exact IH].
  simpl. rewrite (digit_not_space _ Hc). reflexivity.
Qed.

Lemma only_digits_app (a b : string) :
  only_digits (a +:+ b) = only_digits a +:+ only_digits b.
Proof.
  induction a as [|c r IH]; simpl; [reflexivity|].
  destruct (is_digit c); simpl; rewrite IH; reflexivity.
Qed.

Lemma only_digits_idem (s : string) : only_digits (only_digits s) = only_digits s.
Proof.
  induction s as [|c r IH]; simpl; [reflexivity|].
  destruct (is_digit c) eqn:Hc; [|exact IH].
  simpl. rewrite Hc, IH. reflexivity.
Qed.

Lemma append_empty_r (s : string) : s +:+ "" = s.
Proof.
  induction s as [|c r IH]; [reflexivity|].
  change (String c (r +:+ "") = String c r). rewrite IH. reflexivity.
Qed.

(** ** Destination normalisation *)

Lemma user_address_qualified (s : string) :
  qualified (only_digits s +:+ "@s.whatsapp.net").
Proof.
  split.
  - rewrite includes_app. apply orb_true_r.
  - apply trim_fixed. split.
    + apply first_ok_digits. reflexivity.
    + rewrite last_ok_app; [reflexivity | discriminate].
Qed.

Lemma trim_qualified (s : string) :
  includes "@" s = true -> qualified (trim s).
Proof.
  intros Hs. split.
  - rewrite includes_trim; [exact Hs | reflexivity].
  - apply trim_trim.
Qed.

Section ToJidFacts.

Variable J : string -> string.

Hypothesis J_qualified : forall y, qualified y -> qualified (J y).
Hypothesis J_idempotent : forall y, qualified y -> J (J y) = J y.
Hypothesis J_user_address :
  forall d, J (only_digits d +:+ "@s.whatsapp.net") = only_digits d +:+ "@s.whatsapp.net".

Lemma toJid_qualified (x : jsval) : qualified (toJid J x).
Proof.
  unfold toJid.
  destruct (includes "@" (trim (js_String x))) eqn:Hat.
  - apply J_qualified. split; [exact Hat | apply trim_trim].
  - apply user_address_qualified.
Qed.

Lemma toJid_of_qualified (y : string) : qualified y -> toJid J (JStr y) = J y.
Proof.
  intros [Hat Htrim]. unfold toJid. simpl. rewrite Htrim, Hat. reflexivity.
Qed.

(** C9. Provided the library's normaliser keeps an address an address, is
    idempotent on addresses and leaves a user address
    [<digits>@s.whatsapp.net] alone, normalising a destination twice gives
    what normalising it once gives, for every input: a raw digit string
    becomes a user address, and an address containing [@] is handed to the
    library's normaliser. *)
Theorem toJid_idempotent (x : jsval) :
  toJid J (JStr (toJid J x)) = toJid J x.
Proof.
  rewrite (toJid_of_qualified _ (toJid_qualified x)).
  unfold toJid.
  destruct (includes "@" (trim (js_String x))) eqn:Hat.
  - apply J_idempotent. split; [exact Hat | apply trim_trim].
  - apply J_user_address.
Qed.

End ToJidFacts.

(** The digits-only normaliser of the multi-number variant is idempotent
    with no assumption: the suffix it appends holds no digit. *)
Lemma toJid_digits_idempotent (x : jsval) :
  toJid_digits (JStr (toJid_digits x)) = toJid_digits x.
Proof.
  unfold toJid_digits. simpl.
  rewrite only_digits_app, only_digits_idem. simpl.
  rewrite append_empty_r. reflexivity.
Qed.

(** The stand-in for the library's normaliser meets the three assumptions. *)

Lemma plain_user_of (s : string) : plain (Library.user_of s) = true.
Proof.
  induction s as [|c r IH]; simpl; [reflexivity|].
  destruct (Library.ends_user c) eqn:Hc; simpl; [reflexivity|].
  rewrite Hc, IH. reflexivity.
Qed.

Lemma plain_only_digits (s : string) : plain (only_digits s) = true.
Proof.
  induction s as [|c r IH]; simpl; [reflexivity|].
  destruct (is_digit c) eqn:Hc; [|exact IH].
  simpl. rewrite IH, andb_true_r.
  revert Hc. unfold is_digit, Library.ends_user.
  destruct (Ascii.eqb_spec c "@") as [->|_]; [discriminate|].
  destruct (Ascii.eqb_spec c ":") as [->|_]; [discriminate|].
  destruct (Ascii.eqb_spec c "_") as [->|_]; [discriminate|].
  reflexivity.
Qed.

Lemma user_of_plain (u t : string) :
  plain u = true -> Library.user_of (u +:+ String "@" t) = u.
Proof.
  induction u as [|c r IH]; simpl; [reflexivity|].
  intros H. apply andb_true_iff in H as [Hc Hr].
  apply negb_true_iff in Hc. rewrite Hc, (IH Hr). reflexivity.
Qed.

Lemma server_of_plain (u t : string) :
  plain u = true -> Library.server_of (u +:+ String "@" t) = t.
Proof.
  induction u as [|c r IH]; simpl; [reflexivity|].
  intros H. apply andb_true_iff in H as [Hc Hr].
  apply negb_true_iff in Hc. unfold Library.ends_user in Hc.
  destruct (Ascii.eqb c "@"); [discriminate | exact (IH Hr)].
Qed.

Lemma first_ok_user_of (y t : string) :
  first_ok y = true -> first_ok (Library.user_of y +:+ String "@" t) = true.
Proof.
  destruct y as [|c r]; simpl; [reflexivity|].
  destruct (Library.ends_user c); simpl; [reflexivity | auto].
Qed.

Lemma last_ok_server_of (y : string) :
  includes "@" y = true -> last_ok y = true ->
  last_ok (String "@" (Library.server_of y)) = true.
Proof.
  induction y as [|c r IH]; [discriminate|].
  intros Hat Hl. cbn [Library.server_of].
  destruct (Ascii.eqb_spec c "@") as [->|Hc]; [exact Hl|].
  cbn [includes] in Hat.
  destruct (Ascii.eqb_spec c "@") as [|_]; [contradiction|].
  simpl in Hat. destruct r as [|d r']; [discriminate|].
  apply IH; [exact Hat | exact Hl].
Qed.

Lemma normal_server_not_legacy (y : string) :
  String.eqb (normal_server y) "c.us" = false.
Proof.
  unfold normal_server.
  destruct (String.eqb (Library.server_of y) "c.us") eqn:E; [reflexivity | exact E].
Qed.

Lemma library_normal_form (y : string) :
  includes "@" y = true ->
  Library.normalizedUser y = Library.user_of y +:+ String "@" (normal_server y).
Proof. intros H. unfold Library.normalizedUser. rewrite H. reflexivity. Qed.

Lemma library_of_normal_form (u t : string) :
  plain u = true -> String.eqb t "c.us" = false ->
  Library.normalizedUser (u +:+ String "@" t) = u +:+ String "@" t.
Proof.
  intros Hu Ht.
  rewrite library_normal_form by (rewrite includes_app; apply orb_true_r).
  unfold normal_server. rewrite (server_of_plain _ _ Hu), Ht, (user_of_plain _ _ Hu).
  reflexivity.
Qed.

Lemma library_qualified (y : string) :
  qualified y -> qualified (Library.normalizedUser y).
Proof.
  intros [Hat Htrim]. apply trim_fixed in Htrim as [Hf Hl].
  rewrite (library_normal_form _ Hat). split.
  - rewrite includes_app. apply orb_true_r.
  - apply trim_fixed. split; [apply first_ok_user_of, Hf|].
    rewrite last_ok_app by discriminate.
    unfold normal_server.
    destruct (String.eqb (Library.server_of y) "c.us"); [reflexivity|].
    apply last_ok_server_of; assumption.
Qed.

Lemma library_idempotent (y : string) :
  qualified y ->
  Library.normalizedUser (Library.normalizedUser y) = Library.normalizedUser y.
Proof.
  intros [Hat _]. rewrite (library_normal_form _ Hat).
  apply library_of_normal_form; [apply plain_user_of | apply normal_server_not_legacy].
Qed.

Lemma library_user_address (d : string) :
  Library.normalizedUser (only_digits d +:+ "@s.whatsapp.net")
  = only_digits d +:+ "@s.whatsapp.net".
Proof. apply library_of_normal_form; [apply plain_only_digits | reflexivity]. Qed.

Lemma toJid_idempotent_witness :
  toJid Library.normalizedUser
    (JStr (toJid Library.normalizedUser (JStr " +226 70-00-00 ")))
  = toJid Library.normalizedUser (JStr " +226 70-00-00 ")
  /\ toJid Library.normalizedUser
       (JStr (toJid Library.normalizedUser (JStr "22670:3@c.us ")))
     = toJid Library.normalizedUser (JStr "22670:3@c.us ").
Proof.
  split;
    apply (toJid_idempotent Library.normalizedUser
             library_qualified library_idempotent library_user_address).
Defined.

Example toJid_digits_example :
  toJid Library.normalizedUser (JStr " +226 70-00-00 ") = "226700000@s.whatsapp.net".
Proof. reflexivity. Qed.

Example toJid_address_example :
  toJid Library.normalizedUser (JStr "22670:3@c.us ") = "22670@s.whatsapp.net".
Proof. reflexivity. Qed.

Example toJid_number_example :
  toJid Library.normalizedUser (JNum 226700000) = "226700000@s.whatsapp.net".
Proof. reflexivity. Qed.

(** ** Outbound message tracker *)

Lemma qualifying_spec (status : jsval) :
  qualifying status = true <-> status = JNum 3 \/ status = JNum 4.
Proof.
  unfold qualifying. rewrite orb_true_iff, !bool_decide_eq_true. reflexivity.
Qed.

Lemma qualifying_false (status : jsval) :
  status <> JNum 3 -> status <> JNum 4 -> qualifying status = false.
Proof.
  intros H3 H4. destruct (qualifying status) eqn:E; [|reflexivity].
  apply qualifying_spec in E as [E|E]; contradiction.
Qed.

Lemma on_status_update_armed (s : server) (id status : jsval) :
  truthy id = true -> id ∈ deleteOnDelivery s -> qualifying status = true ->
  on_status_update s {| su_id := id; su_status := status |}
  = set_deleteOnDelivery (deleteOnDelivery s ∖ {[id]})
      (set_sentStore (delete id (sentStore s)) s).
Proof.
  intros Ht Hin Hq. unfold on_status_update. simpl.
  rewrite Ht, Hq, bool_decide_eq_true_2 by exact Hin. reflexivity.
Qed.

Lemma on_status_update_unarmed (s : server) (id status : jsval) :
  id ∉ deleteOnDelivery s ->
  on_status_update s {| su_id := id; su_status := status |} = s.
Proof.
  intros Hin. unfold on_status_update. simpl.
  rewrite bool_decide_eq_false_2 by exact Hin.
  rewrite andb_false_r. reflexivity.
Qed.

Lemma on_status_update_unqualified (s : server) (id status : jsval) :
  qualifying status = false ->
  on_status_update s {| su_id := id; su_status := status |} = s.
Proof.
  intros Hq. unfold on_status_update. simpl.
  rewrite Hq, andb_false_r. reflexivity.
Qed.

(** C1. A delivery-status update for a present identifier [id]: when [id]
    is armed and the status is 3 (delivered to device) or 4 (read), the
    handler removes the record of [id], and only that one, from the sent
    store and takes [id] out of the flag set; when the status is neither,
    it changes nothing. *)
Theorem delete_on_delivery (s : server) (id status : jsval) :
  truthy id = true ->
  let s' := on_messages_update s [{| su_id := id; su_status := status |}] in
  (id ∈ deleteOnDelivery s -> status = JNum 3 \/ status = JNum 4 ->
     sentStore s' = delete id (sentStore s)
     /\ deleteOnDelivery s' = deleteOnDelivery s ∖ {[id]}
     /\ connectionState s' = connectionState s
     /\ latestQRDataURL s' = latestQRDataURL s)
  /\ (status <> JNum 3 -> status <> JNum 4 -> s' = s).
Proof.
  intros Ht. cbn zeta. unfold on_messages_update. cbn [fold_left]. split.
  - intros Hin Hq. apply qualifying_spec in Hq.
    rewrite on_status_update_armed by assumption. repeat split.
  - intros H3 H4. apply on_status_update_unqualified, qualifying_false; assumption.
Qed.

Lemma delete_on_delivery_witness :
  let s := set_deleteOnDelivery {[JStr "3EB0A1"]}
             (set_sentStore {[JStr "3EB0A1" := OText "226700000@s.whatsapp.net" (JStr "hi")]}
                initial_server) in
  sentStore (on_messages_update s [{| su_id := JStr "3EB0A1"; su_status := JNum 4 |}])
  = delete (JStr "3EB0A1") (sentStore s)
  /\ on_messages_update s [{| su_id := JStr "3EB0A1"; su_status := JNum 2 |}] = s.
Proof.
  cbn zeta. split.
  - refine (proj1 (proj1 (delete_on_delivery _ (JStr "3EB0A1") (JNum 4) _) _ _)).
    + reflexivity.
    + simpl. set_solver.
    + right. reflexivity.
  - refine (proj2 (delete_on_delivery _ (JStr "3EB0A1") (JNum 2) _) _ _).
    + reflexivity.
    + discriminate.
    + discriminate.
Defined.

Lemma on_status_update_lookup (s : server) (u : status_update) (j : jsval) :
  sentStore (on_status_update s u) !! j
  = if bool_decide (su_id u = j) && truthy j
       && bool_decide (j ∈ deleteOnDelivery s) && qualifying (su_status u)
    then None else sentStore s !! j.
Proof.
  unfold on_status_update.
  destruct (decide (su_id u = j)) as [->|Hne].
  - rewrite (bool_decide_eq_true_2 (j = j)) by reflexivity. cbn [andb].
    destruct (truthy j && bool_decide (j ∈ deleteOnDelivery s)
              && qualifying (su_status u)); [|reflexivity].
    simpl. apply lookup_delete_eq.
  - rewrite (bool_decide_eq_false_2 (su_id u = j)) by exact Hne. cbn [andb].
    destruct (truthy (su_id u) && bool_decide (su_id u ∈ deleteOnDelivery s)
              && qualifying (su_status u)); [|reflexivity].
    simpl. apply lookup_delete_ne, Hne.
Qed.

Lemma on_status_update_flag (s : server) (u : status_update) (j : jsval) :
  bool_decide (j ∈ deleteOnDelivery (on_status_update s u))
  = bool_decide (j ∈ deleteOnDelivery s)
    && negb (bool_decide (su_id u = j) && truthy j && qualifying (su_status u)).
Proof.
  unfold on_status_update.
  destruct (decide (su_id u = j)) as [->|Hne].
  - rewrite (bool_decide_eq_true_2 (j = j)) by reflexivity. cbn [andb].
    destruct (truthy j); cbn [andb negb]; [|rewrite andb_true_r; reflexivity].
    destruct (qualifying (su_status u));
      [|rewrite !andb_false_r, andb_true_r; reflexivity].
    rewrite andb_true_r. cbn [negb]. rewrite andb_false_r.
    destruct (bool_decide (j ∈ deleteOnDelivery s)) eqn:E; [|exact E].
    simpl. apply bool_decide_eq_false_2. set_solver.
  - rewrite (bool_decide_eq_false_2 (su_id u = j)) by exact Hne.
    cbn [andb negb]. rewrite andb_true_r.
    destruct (truthy (su_id u) && bool_decide (su_id u ∈ deleteOnDelivery s)
              && qualifying (su_status u)); [|reflexivity].
    simpl. apply bool_decide_ext. set_solver.
Qed.

Lemma on_messages_update_batch (updates : list status_update) (s : server) (j : jsval) :
  sentStore (on_messages_update s updates) !! j
  = (if truthy j && bool_decide (j ∈ deleteOnDelivery s) && acked updates j
     then None else sentStore s !! j)
  /\ bool_decide (j ∈ deleteOnDelivery (on_messages_update s updates))
     = bool_decide (j ∈ deleteOnDelivery s) && negb (truthy j && acked updates j).
Proof.
  revert s. unfold on_messages_update.
  induction updates as [|u rest IH]; intros s; cbn [fold_left acked existsb].
  - rewrite !andb_false_r, andb_true_r. split; reflexivity.
  - destruct (IH (on_status_update s u)) as [-> ->].
    rewrite on_status_update_lookup, on_status_update_flag.
    fold (acked rest j).
    destruct (bool_decide (su_id u = j)), (truthy j),
      (bool_decide (j ∈ deleteOnDelivery s)), (qualifying (su_status u)),
      (acked rest j); split; reflexivity.
Qed.

Lemma server_eta (s : server) :
  set_deleteOnDelivery (deleteOnDelivery s) (set_sentStore (sentStore s) s) = s.
Proof. destruct s; reflexivity. Qed.

Lemma post_delete_run (id : jsval) (s : server) :
  truthy id = true ->
  post_delete id s
  = (Deleted (bool_decide (is_Some (sentStore s !! id))),
     set_deleteOnDelivery (deleteOnDelivery s ∖ {[id]})
       (set_sentStore (delete id (sentStore s)) s),
     []).
Proof. intros Ht. unfold post_delete, handle. rewrite Ht. reflexivity. Qed.

Lemma post_delete_missing (id : jsval) (s : server) :
  truthy id = false ->
  post_delete id s = (BadRequest "messageId required", s, []).
Proof. intros Ht. unfold post_delete, handle. rewrite Ht. reflexivity. Qed.

(** Explicit deletion of an identifier without a record reports that none
    existed, leaves the store as it is and clears the flag. *)
Lemma post_delete_absent (id : jsval) (s : server) :
  truthy id = true -> sentStore s !! id = None ->
  response_of (post_delete id s) = Deleted false
  /\ sentStore (state_of (post_delete id s)) = sentStore s
  /\ deleteOnDelivery (state_of (post_delete id s)) = deleteOnDelivery s ∖ {[id]}.
Proof.
  intros Ht Hnone. rewrite (post_delete_run _ _ Ht).
  unfold response_of, state_of. cbn [fst snd]. split; [|split].
  - f_equal. apply bool_decide_eq_false_2. rewrite Hnone.
    intros [x Hx]; discriminate.
  - simpl. apply delete_id, Hnone.
  - reflexivity.
Qed.

Lemma deleted_state_fixed (id : jsval) (s : server) :
  let t := set_deleteOnDelivery (deleteOnDelivery s ∖ {[id]})
             (set_sentStore (delete id (sentStore s)) s) in
  set_deleteOnDelivery (deleteOnDelivery t ∖ {[id]})
    (set_sentStore (delete id (sentStore t)) t) = t.
Proof.
  destruct s as [cs q m d]. cbn. unfold set_deleteOnDelivery, set_sentStore. cbn.
  f_equal.
  - apply delete_delete_eq.
  - set_solver.
Qed.

(** C5. Explicit deletion and delivery-triggered deletion of a recorded,
    present identifier [id], in either order: the record leaves the store in
    exactly one of the two steps, both orders end in the same state, without
    record and without flag, and a further explicit deletion reports
    [removed: false]; on any state without a record for [id], explicit
    deletion reports [removed: false] and leaves [id] unarmed. *)
Theorem deletion_exclusive (s : server) (id status : jsval) (r : outbound) :
  truthy id = true -> sentStore s !! id = Some r ->
  let ack := fun t => on_messages_update t [{| su_id := id; su_status := status |}] in
  let s1 := state_of (post_delete id s) in
  let s2 := ack s1 in
  let s1' := ack s in
  let s2' := state_of (post_delete id s1') in
  (response_of (post_delete id s) = Deleted true /\ removals id [s; s1; s2] = 1)
  /\ (response_of (post_delete id s1') = Deleted (negb (removed_by s s1' id))
      /\ removals id [s; s1'; s2'] = 1)
  /\ s2' = s2
  /\ sentStore s2 !! id = None
  /\ (id ∉ deleteOnDelivery s2)
  /\ post_delete id s2 = (Deleted false, s2, [])
  /\ (forall t, sentStore t !! id = None ->
        response_of (post_delete id t) = Deleted false
        /\ id ∉ deleteOnDelivery (state_of (post_delete id t))).
Proof.
  intros Ht Hrec. cbn zeta. unfold on_messages_update. cbn [fold_left].
  rewrite !(post_delete_run _ _ Ht). unfold response_of, state_of. cbn [fst snd].
  set (gone := set_deleteOnDelivery (deleteOnDelivery s ∖ {[id]})
                 (set_sentStore (delete id (sentStore s)) s)).
  assert (Hgone_store : sentStore gone !! id = None) by apply lookup_delete_eq.
  assert (Hgone_flag : id ∉ deleteOnDelivery gone) by (simpl; set_solver).
  assert (Hack_gone : on_status_update gone {| su_id := id; su_status := status |} = gone)
    by (apply on_status_update_unarmed, Hgone_flag).
  assert (Hpresent : bool_decide (is_Some (sentStore s !! id)) = true)
    by (apply bool_decide_eq_true_2; eauto).
  assert (Habsent : bool_decide (is_Some (sentStore gone !! id)) = false)
    by (apply bool_decide_eq_false_2; rewrite Hgone_store; intros [x Hx]; discriminate).
  rewrite Hack_gone.
  assert (Hcases :
    on_status_update s {| su_id := id; su_status := status |} = gone
    \/ on_status_update s {| su_id := id; su_status := status |} = s).
  { unfold on_status_update. simpl.
    destruct (truthy id && bool_decide (id ∈ deleteOnDelivery s) && qualifying status);
      [left | right]; reflexivity. }
  split; [|split; [|split; [|split; [|split; [|split]]]]].
  - split; [rewrite Hpresent; reflexivity|].
    unfold removals, removed_by. rewrite Hpresent, Habsent. reflexivity.
  - destruct Hcases as [-> | ->].
    + unfold removals, removed_by. rewrite Hpresent, Habsent. split; reflexivity.
    + unfold removals, removed_by. fold gone. rewrite Hpresent, Habsent. split; reflexivity.
  - destruct Hcases as [-> | ->]; [apply (deleted_state_fixed id s) | reflexivity].
  - exact Hgone_store.
  - exact Hgone_flag.
  - rewrite Habsent. do 2 f_equal. apply (deleted_state_fixed id s).
  - intros t Hnone. destruct (post_delete_absent id t Ht Hnone) as (Hr & _ & Hf).
    unfold response_of, state_of in Hr, Hf.
    split; [exact Hr | rewrite Hf; set_solver].
Qed.

Lemma deletion_exclusive_witness :
  let ack := fun t =>
    on_messages_update t [{| su_id := JStr "3EB0A1"; su_status := JNum 3 |}] in
  removals (JStr "3EB0A1")
    [armed_example; ack armed_example;
     state_of (post_delete (JStr "3EB0A1") (ack armed_example))] = 1
  /\ response_of (post_delete (JStr "3EB0A1") (ack armed_example)) = Deleted false.
Proof.
  cbn zeta.
  assert (Hrec : sentStore armed_example !! JStr "3EB0A1"
                 = Some (OText "226700000@s.whatsapp.net" (JStr "hi")))
    by apply lookup_singleton_eq.
  destruct (deletion_exclusive armed_example (JStr "3EB0A1") (JNum 3) _ eq_refl Hrec)
    as (_ & [Hresp Hcount] & _).
  split; [exact Hcount | rewrite Hresp; reflexivity].
Defined.

(** ** HTTP handlers *)

(** C8. [POST /sendMessage] with a body that lacks [message], or lacks both
    [number] and [jid]: the full server answers 400 with a validation error,
    leaves the module state as it is and requests nothing from the engine;
    so does the pairing-code variant for a body that is an object. *)
Theorem sendMessage_validation (E : collaborators) (body : option send_body) (s : server) :
  truthy (b_message (or_empty_send body)) = false
  \/ (truthy (b_number (or_empty_send body)) = false
      /\ truthy (b_jid (or_empty_send body)) = false) ->
  post_sendMessage E body s
    = (BadRequest "number/jid and message are required", s, [])
  /\ status_of (response_of (post_sendMessage E body s)) = 400%Z
  /\ (is_Some body ->
      post_sendMessage_pairing E body s
        = (BadRequest "number and message required", s, [])).
Proof.
  intros Hlack.
  assert (Hfull : post_sendMessage E body s
                  = (BadRequest "number/jid and message are required", s, [])).
  { unfold post_sendMessage, handle.
    destruct Hlack as [-> | [-> ->]]; [reflexivity|].
    rewrite orb_true_r. reflexivity. }
  split; [exact Hfull|]. split; [rewrite Hfull; reflexivity|].
  intros [b ->]. simpl in Hlack. unfold post_sendMessage_pairing, handle.
  destruct Hlack as [-> | [-> _]]; [|reflexivity].
  rewrite orb_true_r. reflexivity.
Qed.

Lemma sendMessage_validation_witness :
  post_sendMessage example_engine
    (Some {| b_number := JUndefined; b_jid := JUndefined;
             b_message := JStr "hi"; b_delete := JUndefined |})
    armed_example
  = (BadRequest "number/jid and message are required", armed_example, []).
Proof.
  apply (sendMessage_validation example_engine (Some _) armed_example).
  right. split; reflexivity.
Defined.

Lemma wp_ret {A : Type} (a : A) (Q : outcome A -> server -> Prop) (s : server) :
  Q (Value a) s -> wp (ret a) Q s.
Proof. intros HQ. exact HQ. Qed.

Lemma wp_throw {A : Type} (e : exn) (Q : outcome A -> server -> Prop) (s : server) :
  Q (Thrown e) s -> wp (throw e) Q s.
Proof. intros HQ. exact HQ. Qed.

Lemma wp_modify (f : server -> server) (Q : outcome unit -> server -> Prop) (s : server) :
  Q (Value tt) (f s) -> wp (modify f) Q s.
Proof. intros HQ. exact HQ. Qed.

Lemma wp_bind {A B : Type} (m : H A) (k : A -> H B)
    (Q : outcome B -> server -> Prop) (s : server) :
  wp m (fun o s1 => match o with
                    | Value a => wp (k a) Q s1
                    | Thrown e => Q (Thrown e) s1
                    end) s ->
  wp (hbind m k) Q s.
Proof.
  unfold wp, hbind. destruct (m s) as [[[a|e] s1] l1]; cbn [fst snd].
  - destruct (k a s1) as [[o s2] l2]. cbn [fst snd]. auto.
  - auto.
Qed.

(** Bodies that only talk to the outside world leave the state alone. *)
Lemma wp_await_send (E : collaborators) (to : string) (c : out_content)
    (Q : outcome (option jsval) -> server -> Prop) (s : server) :
  (forall o, Q o s) -> wp (await_send E to c) Q s.
Proof.
  intros HQ. unfold wp, await_send. destruct (sock_sendMessage E to c); apply HQ.
Qed.

Lemma wp_await_fetch (E : collaborators) (url : jsval)
    (Q : outcome (bool * Z * string) -> server -> Prop) (s : server) :
  (forall o, Q o s) -> wp (await_fetch E url) Q s.
Proof.
  intros HQ. unfold wp, await_fetch. destruct (fetch E url); apply HQ.
Qed.

Lemma wp_mime_starts_with (prefix : string) (mimetype : jsval)
    (Q : outcome bool -> server -> Prop) (s : server) :
  (forall o, Q o s) -> wp (mime_starts_with prefix mimetype) Q s.
Proof.
  intros HQ. unfold wp, mime_starts_with.
  destruct (js_or mimetype (JStr "")); apply HQ.
Qed.

Lemma wp_load_media (E : collaborators) (b : media_body)
    (Q : outcome (media + response) -> server -> Prop) (s : server) :
  (forall buffer, Q (Value (inl buffer)) s) ->
  (forall error, Q (Value (inr (BadRequest error))) s) ->
  (forall e, Q (Thrown e) s) ->
  wp (load_media E b) Q s.
Proof.
  intros Hbuffer Hearly Hthrown. unfold load_media.
  destruct (truthy (m_mediaBase64 b)).
  - destruct (m_mediaBase64 b); first [apply Hthrown | apply Hbuffer].
  - destruct (truthy (m_mediaUrl b)); [|apply Hbuffer].
    apply wp_bind, wp_await_fetch. intros [[[ok status] bytes]|e]; [|apply Hthrown].
    destruct (negb ok); [apply Hearly | apply Hbuffer].
Qed.

Lemma wp_handle (h : H response) (Q : outcome response -> server -> Prop) (s : server) :
  wp h Q s ->
  exists o, Q o (state_of (handle h s))
    /\ response_of (handle h s)
       = match o with Value r => r | Thrown e => ServerError e end.
Proof.
  unfold wp, handle, state_of, response_of.
  destruct (h s) as [[[r|e] s'] l]; cbn [fst snd]; intros HQ;
    [exists (Value r) | exists (Thrown e)]; split; auto.
Qed.

Lemma viewOnce_post_unchanged (s : server) (caption : jsval) (o : outcome response) :
  (forall id to, o <> Value (Sent id to)) -> viewOnce_post s caption o s.
Proof. intros Hne. split; [reflexivity|]. intros id to Heq. destruct (Hne _ _ Heq). Qed.

Lemma sendViewOnceMedia_post (E : collaborators) (body : option media_body) (s : server) :
  exists o,
    viewOnce_post s (m_caption (or_empty_media body)) o
      (state_of (post_sendViewOnceMedia E body s))
    /\ response_of (post_sendViewOnceMedia E body s)
       = match o with Value r => r | Thrown e => ServerError e end.
Proof.
  unfold post_sendViewOnceMedia. apply wp_handle.
  set (b := or_empty_media body).
  destruct (_ || _).
  { apply wp_ret, viewOnce_post_unchanged. discriminate. }
  apply wp_bind, wp_load_media;
    [intros buffer
    |intros error; apply wp_ret, viewOnce_post_unchanged; discriminate
    |intros e; apply viewOnce_post_unchanged; discriminate].
  apply wp_bind, wp_mime_starts_with.
  intros [isImage|e]; [|apply viewOnce_post_unchanged; discriminate].
  apply wp_bind, wp_mime_starts_with.
  intros [isVideo|e]; [|apply viewOnce_post_unchanged; discriminate].
  apply wp_bind, wp_await_send.
  intros [key_id|e]; [|apply viewOnce_post_unchanged; discriminate].
  apply wp_bind, wp_modify, wp_ret.
  split; [reflexivity|]. intros id to Heq. injection Heq as <- <-. reflexivity.
Qed.

(** C10. A successful [POST /sendViewOnceMedia], whatever its body says
    under [delete]: the record of the assigned identifier is written to the
    sent store and the flag set stays as it was; an identifier that was not
    armed before is therefore not armed after, and a later delivery
    acknowledgment for it, qualifying or not, leaves the record in place. *)
Theorem viewOnce_never_armed (E : collaborators) (body : option media_body)
    (s s' : server) (id : jsval) (to : string) (l : list effect) :
  post_sendViewOnceMedia E body s = (Sent id to, s', l) ->
  let record := OViewOnce to (m_caption (or_empty_media body)) in
  sentStore s' = <[id := record]> (sentStore s)
  /\ deleteOnDelivery s' = deleteOnDelivery s
  /\ (id ∉ deleteOnDelivery s ->
      forall status,
        sentStore (on_messages_update s' [{| su_id := id; su_status := status |}]) !! id
        = Some record).
Proof.
  intros Hrun. cbn zeta.
  destruct (sendViewOnceMedia_post E body s) as (o & [Hflags Hstore] & Hresp).
  rewrite Hrun in Hflags, Hstore, Hresp.
  unfold state_of, response_of in *. cbn [fst snd] in *.
  assert (Ho : o = Value (Sent id to)) by (destruct o; congruence).
  specialize (Hstore id to Ho).
  split; [exact Hstore|]. split; [exact Hflags|].
  intros Hfresh status. unfold on_messages_update. cbn [fold_left].
  rewrite on_status_update_unarmed by (rewrite Hflags; exact Hfresh).
  rewrite Hstore. apply lookup_insert_eq.
Qed.

Lemma viewOnce_never_armed_witness :
  let body := Some {| m_number := JStr "226700000"; m_jid := JUndefined;
                      m_caption := JStr "look"; m_mediaUrl := JUndefined;
                      m_mediaBase64 := JStr "data:image/png;base64,aGk=";
                      m_mimetype := JStr "image/png"; m_delete := JBool true |} in
  let s' := state_of (post_sendViewOnceMedia example_engine body initial_server) in
  response_of (post_sendViewOnceMedia example_engine body initial_server)
  = Sent (JStr "3EB0A1") "226700000@s.whatsapp.net"
  /\ deleteOnDelivery s' = ∅
  /\ sentStore (on_messages_update s'
                  [{| su_id := JStr "3EB0A1"; su_status := JNum 4 |}]) !! JStr "3EB0A1"
     = Some (OViewOnce "226700000@s.whatsapp.net" (JStr "look")).
Proof.
  cbn zeta. split; [reflexivity|].
  pose proof (viewOnce_never_armed example_engine
    (Some {| m_number := JStr "226700000"; m_jid := JUndefined;
             m_caption := JStr "look"; m_mediaUrl := JUndefined;
             m_mediaBase64 := JStr "data:image/png;base64,aGk=";
             m_mimetype := JStr "image/png"; m_delete := JBool true |})
    initial_server _ (JStr "3EB0A1") "226700000@s.whatsapp.net" _ eq_refl)
    as (_ & Hflags & Hkept).
  split; [exact Hflags|].
  apply Hkept. simpl. set_solver.
Defined.

(** ** Connection manager *)

Lemma on_connection_authenticated (u : update) (s : server) :
  authenticated (connectionState (fst (on_connection u s)))
  = match u_connection u with
    | Some Open => true
    | Some Close => false
    | _ => authenticated (connectionState s)
    end.
Proof. unfold on_connection. destruct (u_connection u) as [[]|]; reflexivity. Qed.

Lemma on_connection_connection (u : update) (s : server) :
  connection (connectionState (fst (on_connection u s)))
  = default (connection (connectionState s)) (u_connection u).
Proof. unfold on_connection. destruct (u_connection u) as [[]|]; reflexivity. Qed.


Lemma consistent_step (render : string -> option string) (s : server) (u : update) :
  consistent s ->
  authenticated (connectionState s) && bare_connecting u = false ->
  consistent (fst (on_connection_update render s u)).
Proof.
  unfold consistent, on_connection_update, bare_connecting.
  intros Hs Hu.
  destruct (string_truthy (u_qr u)) as [qr|].
  - destruct (render qr) as [url|]; [|exact Hs].
    rewrite on_connection_authenticated, on_connection_connection.
    destruct (u_connection u) as [[]|]; simpl; congruence.
  - rewrite on_connection_authenticated, on_connection_connection.
    rewrite (bool_decide_eq_true_2 (None = None)), andb_true_r in Hu by reflexivity.
    destruct (u_connection u) as [[]|]; simpl; try congruence; [|exact Hs].
    rewrite bool_decide_eq_true_2, andb_true_r in Hu by reflexivity.
    congruence.
Qed.

Lemma consistent_run (render : string -> option string) (us : list update) (s : server) :
  consistent s -> in_engine_order render s us = true ->
  consistent (run_updates render s us).
Proof.
  revert s. unfold run_updates.
  induction us as [|u rest IH]; intros s Hs Horder; [exact Hs|].
  cbn [fold_left]. cbn [in_engine_order] in Horder.
  apply andb_true_iff in Horder as [Hu Hrest].
  apply negb_true_iff in Hu.
  apply IH; [apply consistent_step; assumption | exact Hrest].
Qed.

(** C3, as the handler has it.  In every state reached from the initial
    one by connection updates among which no bare [connecting] update
    arrives while [authenticated] is true, [authenticated] implies that the
    connection is open. *)
Theorem authenticated_implies_open (render : string -> option string) (us : list update) :
  in_engine_order render initial_server us = true ->
  consistent (run_updates render initial_server us).
Proof. apply consistent_run. intros H. discriminate H. Qed.

Lemma authenticated_implies_open_witness :
  consistent
    (run_updates render_example initial_server
       [connecting_update; qr_update "abc"; open_update;
        close_update (Some 428%Z); connecting_update; open_update]).
Proof. apply authenticated_implies_open. reflexivity. Defined.

(** C3, as stated, fails: a [connecting] update after [open] leaves
    [authenticated] true on a connection that is not open. *)
Lemma authenticated_while_connecting :
  let s := run_updates render_example initial_server [open_update; connecting_update] in
  authenticated (connectionState s) = true
  /\ connection (connectionState s) <> Open.
Proof. split; [reflexivity | discriminate]. Qed.

(** While [authenticated] is true, [GET /auth] does not show the artifact. *)
Lemma get_auth_hides_artifact (s : server) :
  authenticated (connectionState s) = true ->
  get_auth s = AuthOpen (connection (connectionState s)).
Proof. intros H. unfold get_auth. rewrite H. reflexivity. Qed.


(** C2 on the code: after [qr], [open] the server is authenticated and
    still holds the artifact, and once the connection closes [GET /auth]
    shows that artifact again. *)
Theorem stale_artifact_exposed :
  let s1 := run_updates render_example initial_server [qr_update "abc"; open_update] in
  let s2 := run_updates render_example s1 [close_update (Some 401%Z)] in
  authenticated (connectionState s1) = true
  /\ latestQRDataURL s1 = Some "data:image/png;base64,abc"
  /\ get_auth s1 = AuthOpen Open
  /\ get_auth s2 = AuthPending (Some "data:image/png;base64,abc").
Proof. repeat split. Qed.


Lemma stays_unauthenticated (render : string -> option string)
    (us : list update) (s : server) :
  authenticated (connectionState s) = false ->
  Forall (fun v => u_connection v <> Some Open) us ->
  authenticated (connectionState (run_updates render s us)) = false.
Proof.
  revert s. unfold run_updates.
  induction us as [|u rest IH]; intros s Hs Hus; [exact Hs|].
  cbn [fold_left]. inversion Hus as [|? ? Hu Hrest]; subst.
  apply IH; [|exact Hrest].
  unfold on_connection_update.
  destruct (string_truthy (u_qr u)) as [qr|].
  - destruct (render qr); [|exact Hs].
    rewrite on_connection_authenticated.
    destruct (u_connection u) as [[]|] eqn:E; simpl; congruence.
  - rewrite on_connection_authenticated.
    destruct (u_connection u) as [[]|] eqn:E; simpl; congruence.
Qed.

(** C4. A [close] update: the server is no longer authenticated.  When the
    reason carries status code 401 the handler sets no timer, so nothing is
    pending that the process did not have before, and [authenticated] stays
    false for as long as no update reports [open].  For every other reason,
    also a missing one, the handler sets exactly one timer that runs
    [initSocket] after 2000 ms, and when that timer fires a fresh socket is
    built. *)
Theorem close_schedules_reconnect (render : string -> option string)
    (p : process) (u : update) :
  u_connection u = Some Close -> u_qr u = None ->
  let p' := deliver render p u in
  authenticated (connectionState (srv p')) = false
  /\ connection (connectionState (srv p')) = Close
  /\ (u_statusCode u = Some 401%Z ->
      timers p' = timers p
      /\ (timers p = [] -> fire p' = p')
      /\ forall us, Forall (fun v => u_connection v <> Some Open) us ->
           authenticated (connectionState (run_updates render (srv p') us)) = false)
  /\ (u_statusCode u <> Some 401%Z ->
      timers p' = (timers p ++ [(InitSocket, 2000%Z)])%list
      /\ (timers p = [] ->
          fire p' = {| srv := srv p'; timers := []; sockets := S (sockets p) |})).
Proof.
  intros Hclose Hqr. cbn zeta.
  unfold deliver, on_connection_update, on_connection, shouldReconnect.
  rewrite Hqr, Hclose. cbn [string_truthy].
  split; [reflexivity|]. split; [reflexivity|]. split.
  - intros H401. rewrite bool_decide_eq_true_2 by exact H401. cbn.
    rewrite app_nil_r. split; [reflexivity|]. split.
    + intros Hnone. unfold fire. cbn. rewrite Hnone. reflexivity.
    + intros us Hus. apply stays_unauthenticated; [reflexivity | exact Hus].
  - intros Hother. rewrite bool_decide_eq_false_2 by exact Hother. cbn.
    split; [reflexivity|].
    intros Hnone. unfold fire. cbn. rewrite Hnone. reflexivity.
Qed.

Lemma close_schedules_reconnect_witness :
  timers (deliver render_example boot (close_update (Some 401%Z))) = []
  /\ timers (deliver render_example boot (close_update (Some 428%Z)))
     = [(InitSocket, 2000%Z)]
  /\ timers (deliver render_example boot (close_update None))
     = [(InitSocket, 2000%Z)].
Proof.
  split; [|split].
  - refine (proj1 (proj1 (proj2 (proj2
      (close_schedules_reconnect render_example boot (close_update (Some 401%Z))
         eq_refl eq_refl))) eq_refl)).
  - refine (proj1 (proj2 (proj2 (proj2
      (close_schedules_reconnect render_example boot (close_update (Some 428%Z))
         eq_refl eq_refl))) _)). discriminate.
  - refine (proj1 (proj2 (proj2 (proj2
      (close_schedules_reconnect render_example boot (close_update None)
         eq_refl eq_refl))) _)). discriminate.
Defined.

(** ** Inbound relay *)

(** One turn of the loop, in the full server. *)
Lemma relay_one_trace (WEBHOOK_URL : string) (now : Z)
    (answer : payload -> fetch_result) (msg : inbound) :
  (fromMe msg = true \/ WEBHOOK_URL = "" -> relay_one WEBHOOK_URL now answer msg = [])
  /\ (fromMe msg = false -> WEBHOOK_URL <> "" ->
      filter is_post (relay_one WEBHOOK_URL now answer msg)
        = [HttpPost WEBHOOK_URL (Serialized (serializeMessage now msg))]
      /\ Forall (fun e => is_post e = false -> exists m, e = ConsoleError m)
           (relay_one WEBHOOK_URL now answer msg)).
Proof.
  unfold relay_one. split.
  - intros [-> | ->]; [reflexivity|]. destruct (fromMe msg); reflexivity.
  - intros -> Hurl.
    destruct (String.eqb_spec WEBHOOK_URL "") as [|_]; [contradiction|].
    destruct (answer _) as [m|[] status body]; (split; [reflexivity|]);
      repeat constructor; intros; try discriminate; eauto.
Qed.

(** The same turn in [src/index.js]. *)
Lemma relay_one_pairing_trace (WEBHOOK_URL : string)
    (answer : payload -> fetch_result) (msg : inbound) :
  (fromMe msg = true \/ WEBHOOK_URL = "" -> relay_one_pairing WEBHOOK_URL answer msg = [])
  /\ (fromMe msg = false -> WEBHOOK_URL <> "" ->
      filter is_post (relay_one_pairing WEBHOOK_URL answer msg)
        = [HttpPost WEBHOOK_URL (Raw msg)]
      /\ Forall (fun e => is_post e = false -> exists m, e = ConsoleError m)
           (relay_one_pairing WEBHOOK_URL answer msg)).
Proof.
  unfold relay_one_pairing. split.
  - intros [-> | ->]; [reflexivity|]. destruct (fromMe msg); reflexivity.
  - intros -> Hurl.
    destruct (String.eqb_spec WEBHOOK_URL "") as [|_]; [contradiction|].
    destruct (answer _) as [m|ok status body]; (split; [reflexivity|]);
      repeat constructor; intros; try discriminate; eauto.
Qed.

Lemma relay_one_posts (WEBHOOK_URL : string) (now : Z)
    (answer : payload -> fetch_result) (msg : inbound) :
  let n := if negb (fromMe msg) && negb (String.eqb WEBHOOK_URL "") then 1 else 0 in
  posts (relay_one WEBHOOK_URL now answer msg) = n
  /\ posts (relay_one_pairing WEBHOOK_URL answer msg) = n.
Proof.
  cbn zeta. unfold posts, relay_one, relay_one_pairing.
  destruct (fromMe msg); [split; reflexivity|].
  destruct (String.eqb WEBHOOK_URL ""); [split; reflexivity|].
  split; [destruct (answer _) as [m|[] status body] | destruct (answer _) as [m|ok status body]];
    reflexivity.
Qed.

(** C7. The [messages.upsert] handler, for every batch of inbound messages
    and whatever the webhook answers: each message has its own trace, in
    the order of the batch; the trace of a message that is the gateway's
    own ([fromMe]), and every trace when no webhook is configured, is
    empty, so no POST is issued for it; the trace of any other message
    holds exactly one POST, to the webhook, of the envelope of that message
    (of the message as received in [src/index.js]), and nothing else but
    the log of a failure.  The handler leaves the server state as it found
    it: nothing is kept of the envelope and nothing is retried. *)
Theorem relay_once (WEBHOOK_URL : string) (now : Z)
    (answer : payload -> fetch_result) (s : server) (msgs : list inbound) :
  let full := on_messages_upsert WEBHOOK_URL now answer s msgs in
  let pairing := on_messages_upsert_pairing WEBHOOK_URL answer s msgs in
  fst full = s /\ fst pairing = s
  /\ Forall2 (fun msg trace =>
        (fromMe msg = true \/ WEBHOOK_URL = "" -> trace = [])
        /\ (fromMe msg = false -> WEBHOOK_URL <> "" ->
            filter is_post trace
              = [HttpPost WEBHOOK_URL (Serialized (serializeMessage now msg))]
            /\ Forall (fun e => is_post e = false -> exists m, e = ConsoleError m) trace))
       msgs (snd full)
  /\ Forall2 (fun msg trace =>
        (fromMe msg = true \/ WEBHOOK_URL = "" -> trace = [])
        /\ (fromMe msg = false -> WEBHOOK_URL <> "" ->
            filter is_post trace = [HttpPost WEBHOOK_URL (Raw msg)]
            /\ Forall (fun e => is_post e = false -> exists m, e = ConsoleError m) trace))
       msgs (snd pairing)
  /\ posts (concat (snd full))
     = length (filter (fun m => negb (fromMe m) && negb (String.eqb WEBHOOK_URL "")) msgs)
  /\ posts (concat (snd pairing))
     = length (filter (fun m => negb (fromMe m) && negb (String.eqb WEBHOOK_URL "")) msgs).
Proof.
  cbn zeta. unfold on_messages_upsert, on_messages_upsert_pairing. cbn [fst snd].
  split; [reflexivity|]. split; [reflexivity|].
  induction msgs as [|msg rest (IHfull & IHpair & IHn & IHm)].
  - repeat split; constructor.
  - cbn [map concat].
    split; [constructor; [apply relay_one_trace | exact IHfull]|].
    split; [constructor; [apply relay_one_pairing_trace | exact IHpair]|].
    unfold posts in *. rewrite !filter_app, !length_app, IHn, IHm.
    rewrite (filter_cons (fun m => negb (fromMe m) && negb (String.eqb WEBHOOK_URL ""))).
    destruct (relay_one_posts WEBHOOK_URL now answer msg) as [Hfull Hpair].
    unfold posts in Hfull, Hpair. rewrite Hfull, Hpair.
    destruct (negb (fromMe msg) && negb (String.eqb WEBHOOK_URL "")); split; reflexivity.
Qed.

(** Over a batch, with a webhook configured: as many POSTs as there are
    messages that are not the gateway's own. *)
Lemma relay_batch_posts (WEBHOOK_URL : string) (now : Z)
    (answer : payload -> fetch_result) (s : server) (msgs : list inbound) :
  WEBHOOK_URL <> "" ->
  posts (concat (snd (on_messages_upsert WEBHOOK_URL now answer s msgs)))
  = length (filter (fun m => negb (fromMe m)) msgs).
Proof.
  intros Hurl. unfold on_messages_upsert, posts. cbn [snd].
  induction msgs as [|msg rest IH]; [reflexivity|].
  cbn [map concat]. rewrite filter_app, length_app, IH.
  rewrite (filter_cons (fun m => negb (fromMe m))).
  unfold relay_one.
  destruct (fromMe msg); [reflexivity|].
  destruct (String.eqb_spec WEBHOOK_URL "") as [|_]; [contradiction|].
  destruct (answer _) as [m|[] status body]; reflexivity.
Qed.

Lemma relay_once_witness :
  exists own other,
    snd (on_messages_upsert "https://hook.example/in" 0
           (fun _ => FetchFails "ECONNREFUSED") initial_server
           [inbound_example true; inbound_example false])
    = [own; other]
    /\ own = []
    /\ filter is_post other
       = [HttpPost "https://hook.example/in"
            (Serialized (serializeMessage 0 (inbound_example false)))].
Proof.
  pose proof (proj1 (proj2 (proj2
    (relay_once "https://hook.example/in" 0 (fun _ => FetchFails "ECONNREFUSED")
       initial_server [inbound_example true; inbound_example false])))) as Htraces.
  do 2 eexists. split; [reflexivity|]. split.
  - refine (proj1 (Forall2_lookup_lr _ _ _ 0 _ _ Htraces eq_refl eq_refl) _).
    left. reflexivity.
  - refine (proj1 (proj2 (Forall2_lookup_lr _ _ _ 1 _ _ Htraces eq_refl eq_refl)
                     eq_refl _)).
    discriminate.
Defined.

Example serializeMessage_example :
  serializeMessage 0 (inbound_example false)
  = {| e_id := "ABCD"; e_jid := "226700000@s.whatsapp.net"; e_fromMe := false;
       e_pushName := "Awa"; e_timestamp := 1700000000; e_type := "conversation";
       e_content := TextContent "salut" |}.
Proof. reflexivity. Qed.

(** ** Credential persistence *)

(** C6, as the handler has it.  With a database configured and every local
    write and read-back succeeding, each credential-change event gives a
    local write, then the read-back, then one upsert of the blob under the
    key [session], and nothing before the local write; [N] events give [N]
    remote writes.  With no database configured none is made. *)
Theorem creds_local_then_remote (envs : list creds_env) :
  Forall (fun e => save_ok e = true /\ is_Some (read_back e)) envs ->
  Forall2 (fun e trace =>
      exists blob rest,
        read_back e = Some blob
        /\ trace = (SaveCreds :: ReadSession :: DbUpsert "session" blob :: rest)
        /\ remote_writes trace = 1)
    envs (on_creds_updates true envs)
  /\ remote_writes (concat (on_creds_updates true envs)) = length envs
  /\ remote_writes (concat (on_creds_updates false envs)) = 0.
Proof.
  unfold on_creds_updates.
  induction 1 as [|e rest [Hsave [blob Hread]] Hrest (IHtraces & IHtrue & IHfalse)].
  - split; [constructor | split; reflexivity].
  - cbn [map concat]. unfold remote_writes in *.
    rewrite !filter_app, !length_app, IHtrue, IHfalse.
    unfold saveStateAndDB, saveSessionToDB. rewrite Hsave, Hread. cbn.
    split; [|split].
    + constructor; [|exact IHtraces].
      exists blob. destruct (db_ok e); eexists; repeat split; exact Hread.
    + destruct (db_ok e); reflexivity.
    + reflexivity.
Qed.

Lemma creds_local_then_remote_witness :
  remote_writes (concat (on_creds_updates true [creds_ok "{a}"; creds_ok "{b}"; creds_ok "{c}"]))
  = 3.
Proof.
  refine (proj1 (proj2 (creds_local_then_remote [creds_ok "{a}"; creds_ok "{b}"; creds_ok "{c}"] _))).
  repeat constructor; eauto.
Defined.

(** C6, as stated, fails: with no database configured, and with a database
    but a failing local write or read-back, an event gives no remote
    write. *)
Lemma creds_no_remote_write :
  remote_writes (concat (on_creds_updates false [creds_ok "{a}"])) <> length [creds_ok "{a}"]
  /\ remote_writes
       (concat (on_creds_updates true
          [{| save_ok := false; read_back := Some "{a}"; state_json := "{a}"; db_ok := true |}]))
     <> 1
  /\ remote_writes
       (concat (on_creds_updates true
          [{| save_ok := true; read_back := None; state_json := "{a}"; db_ok := true |}]))
     <> 1.
Proof. repeat split; discriminate. Qed.

(** The other two variants persist in the same order. *)
Lemma creds_variants (e : creds_env) (blob : string) :
  save_ok e = true -> read_back e = Some blob ->
  on_creds_update_pairing true e = [SaveCreds; ReadSession; DbUpsert "session" blob]
  /\ on_creds_update_multifile true e = [SaveCreds; DbUpsert "session" (state_json e)]
  /\ on_creds_update_pairing false e = [SaveCreds; ReadSession]
  /\ on_creds_update_multifile false e = [SaveCreds].
Proof.
  intros Hsave Hread.
  unfold on_creds_update_pairing, on_creds_update_multifile, saveSessionToDB.
  rewrite Hsave, Hread. repeat split.
Qed.

(** * Further properties of the code *)

(** ** Sending and tracking *)

Lemma post_sendMessage_run (E : collaborators) (b : send_body) (s : server) :
  truthy (b_message b) = true ->
  truthy (b_number b) || truthy (b_jid b) = true ->
  let to := destination E (b_number b) (b_jid b) in
  post_sendMessage E (Some b) s
  = match sock_sendMessage E to (CText (b_message b)) with
    | SendFails m =>
        (ServerError (Failure m), s, [EngineSend to (CText (b_message b))])
    | SendOk key_id =>
        (Sent (default JUndefined key_id) to,
         text_recorded E b (default JUndefined key_id) s,
         [EngineSend to (CText (b_message b))])
    end.
Proof.
  intros Hm Hd. cbn zeta.
  unfold post_sendMessage, handle, hbind, await_send, modify, ret, text_recorded,
    destination.
  cbn [or_empty_send]. rewrite Hm. cbn [negb orb].
  replace (negb (truthy (b_number b)) && negb (truthy (b_jid b))) with false
    by (destruct (truthy (b_number b)), (truthy (b_jid b)); simpl in *; congruence).
  destruct (truthy (b_jid b));
    (destruct (sock_sendMessage E _ _) as [m|key_id]; [reflexivity|]);
    destruct (truthy (b_delete b)); reflexivity.
Qed.

Lemma post_sendMessage_invalid (E : collaborators) (body : option send_body) (s : server) :
  truthy (b_message (or_empty_send body)) = false
  \/ truthy (b_number (or_empty_send body)) || truthy (b_jid (or_empty_send body)) = false ->
  post_sendMessage E body s
  = (BadRequest "number/jid and message are required", s, []).
Proof.
  intros Hbad. unfold post_sendMessage, handle.
  destruct Hbad as [-> | Hd]; [reflexivity|].
  apply orb_false_iff in Hd as [-> ->]. rewrite orb_true_r. reflexivity.
Qed.

Lemma post_sendMessage_cases (E : collaborators) (body : option send_body) (s : server) :
  (exists b, body = Some b /\ truthy (b_message b) = true
             /\ truthy (b_number b) || truthy (b_jid b) = true)
  \/ post_sendMessage E body s
     = (BadRequest "number/jid and message are required", s, []).
Proof.
  destruct (truthy (b_message (or_empty_send body))) eqn:Hm;
    [|right; apply post_sendMessage_invalid; left; exact Hm].
  destruct (truthy (b_number (or_empty_send body)) || truthy (b_jid (or_empty_send body)))
    eqn:Hd; [|right; apply post_sendMessage_invalid; right; exact Hd].
  destruct body as [b|]; [|discriminate].
  left. exists b. auto.
Qed.

(** X1. [POST /sendMessage] is all or nothing: unless it answers with the
    message identifier, it leaves the module state exactly as it found it;
    it asks the engine at most once, and not at all when it answers 400. *)
Theorem sendMessage_all_or_nothing (E : collaborators) (body : option send_body)
    (s : server) :
  (is_sent (response_of (post_sendMessage E body s)) = false ->
     state_of (post_sendMessage E body s) = s)
  /\ length (filter is_engine_send (snd (post_sendMessage E body s))) <= 1
  /\ (status_of (response_of (post_sendMessage E body s)) = 400%Z ->
      snd (post_sendMessage E body s) = []).
Proof.
  destruct (post_sendMessage_cases E body s) as [(b & -> & Hm & Hd) | ->].
  - rewrite (post_sendMessage_run E b s Hm Hd). cbn zeta.
    destruct (sock_sendMessage E _ _) as [m|key_id];
      unfold response_of, state_of; cbn; repeat split; auto; discriminate.
  - unfold response_of, state_of. cbn. repeat split; auto.
Qed.

Lemma sendMessage_all_or_nothing_witness :
  state_of (post_sendMessage refusing_engine
              (Some {| b_number := JStr "226700000"; b_jid := JUndefined;
                       b_message := JStr "hi"; b_delete := JBool true |})
              armed_example)
  = armed_example.
Proof.
  exact (proj1 (sendMessage_all_or_nothing refusing_engine
    (Some {| b_number := JStr "226700000"; b_jid := JUndefined;
             b_message := JStr "hi"; b_delete := JBool true |}) armed_example)
    eq_refl).
Defined.

(** X2. The scenario of an armed text message: a successful
    [POST /sendMessage] with a truthy [delete] records the message under the
    identifier the engine assigned and arms it; a later [messages.update]
    for that identifier with status 3 or 4 removes both, and when the
    identifier was new the module state is again what it was before the
    request. *)
Theorem send_armed_then_delivered (E : collaborators) (b : send_body) (s : server)
    (id status : jsval) :
  truthy (b_message b) = true ->
  truthy (b_number b) || truthy (b_jid b) = true ->
  truthy (b_delete b) = true ->
  sock_sendMessage E (destination E (b_number b) (b_jid b)) (CText (b_message b))
    = SendOk (Some id) ->
  truthy id = true ->
  status = JNum 3 \/ status = JNum 4 ->
  let s1 := state_of (post_sendMessage E (Some b) s) in
  let s2 := on_messages_update s1 [{| su_id := id; su_status := status |}] in
  response_of (post_sendMessage E (Some b) s)
    = Sent id (destination E (b_number b) (b_jid b))
  /\ sentStore s1 !! id
     = Some (OText (destination E (b_number b) (b_jid b)) (b_message b))
  /\ id ∈ deleteOnDelivery s1
  /\ sentStore s2 = delete id (sentStore s)
  /\ deleteOnDelivery s2 = deleteOnDelivery s ∖ {[id]}
  /\ (sentStore s !! id = None -> id ∉ deleteOnDelivery s -> s2 = s).
Proof.
  intros Hm Hd Hdel Hsend Hid Hq. cbn zeta.
  rewrite (post_sendMessage_run E b s Hm Hd). cbn zeta. rewrite Hsend.
  unfold response_of, state_of, text_recorded. cbn [fst snd default].
  rewrite Hdel.
  set (to := destination E (b_number b) (b_jid b)).
  split; [reflexivity|]. split; [apply lookup_insert_eq|].
  split; [simpl; set_solver|].
  unfold on_messages_update. cbn [fold_left].
  rewrite on_status_update_armed;
    [|exact Hid|simpl; set_solver|apply qualifying_spec, Hq].
  destruct s as [cs q store flags]. cbn.
  assert (Hstore : delete id (<[id:=OText to (b_message b)]> store) = delete id store)
    by apply delete_insert_eq.
  assert (Hflags : ({[id]} ∪ flags) ∖ {[id]} = flags ∖ {[id]}) by set_solver.
  split; [exact Hstore|]. split; [exact Hflags|].
  intros Hnew Hunarmed. unfold set_deleteOnDelivery, set_sentStore. cbn.
  rewrite Hstore, Hflags. f_equal.
  - apply delete_id, Hnew.
  - cbn in Hunarmed. set_solver.
Qed.

Lemma send_armed_then_delivered_witness :
  let b := {| b_number := JStr "226700000"; b_jid := JUndefined;
              b_message := JStr "hi"; b_delete := JBool true |} in
  on_messages_update (state_of (post_sendMessage example_engine (Some b) initial_server))
    [{| su_id := JStr "3EB0A1"; su_status := JNum 4 |}]
  = initial_server.
Proof.
  cbn zeta.
  refine (proj2 (proj2 (proj2 (proj2 (proj2
    (send_armed_then_delivered example_engine
       {| b_number := JStr "226700000"; b_jid := JUndefined;
          b_message := JStr "hi"; b_delete := JBool true |}
       initial_server (JStr "3EB0A1") (JNum 4)
       eq_refl eq_refl eq_refl eq_refl eq_refl (or_intror eq_refl)))))) _ _).
  - reflexivity.
  - simpl. set_solver.
Defined.

Lemma sendViewOnceMedia_strong_post (E : collaborators) (body : option media_body)
    (s : server) :
  exists o,
    sent_or_unchanged s o (state_of (post_sendViewOnceMedia E body s))
    /\ response_of (post_sendViewOnceMedia E body s)
       = match o with Value r => r | Thrown e => ServerError e end.
Proof.
  unfold post_sendViewOnceMedia. apply wp_handle.
  set (b := or_empty_media body).
  destruct (_ || _); [apply wp_ret; reflexivity|].
  apply wp_bind, wp_load_media;
    [intros buffer | intros error; apply wp_ret; reflexivity | intros e; reflexivity].
  apply wp_bind, wp_mime_starts_with. intros [isImage|e]; [|reflexivity].
  apply wp_bind, wp_mime_starts_with. intros [isVideo|e]; [|reflexivity].
  apply wp_bind, wp_await_send. intros [key_id|e]; [|reflexivity].
  apply wp_bind, wp_modify, wp_ret. exact I.
Qed.

(** X3. [POST /sendViewOnceMedia] is all or nothing: unless it answers with
    the message identifier, whether because of a 400, a failed download, a
    malformed field or a refusal of the engine, it leaves the module state
    exactly as it found it. *)
Theorem sendViewOnceMedia_all_or_nothing (E : collaborators)
    (body : option media_body) (s : server) :
  is_sent (response_of (post_sendViewOnceMedia E body s)) = false ->
  state_of (post_sendViewOnceMedia E body s) = s.
Proof.
  destruct (sendViewOnceMedia_strong_post E body s) as (o & Hpost & ->).
  destruct o as [[]|]; cbn; intros Hsent; first [discriminate | exact Hpost].
Qed.

Lemma sendViewOnceMedia_all_or_nothing_witness :
  state_of (post_sendViewOnceMedia example_engine
              (Some {| m_number := JStr "226700000"; m_jid := JUndefined;
                       m_caption := JUndefined; m_mediaUrl := JUndefined;
                       m_mediaBase64 := JNum 7;
                       m_mimetype := JStr "image/png"; m_delete := JUndefined |})
              armed_example)
  = armed_example.
Proof. apply sendViewOnceMedia_all_or_nothing. reflexivity. Defined.

Lemma server_ext (s t : server) :
  connectionState s = connectionState t ->
  latestQRDataURL s = latestQRDataURL t ->
  sentStore s = sentStore t ->
  deleteOnDelivery s = deleteOnDelivery t ->
  s = t.
Proof. destruct s, t; cbn; intros; subst; reflexivity. Qed.

Lemma on_status_update_frame (s : server) (u : status_update) :
  connectionState (on_status_update s u) = connectionState s
  /\ latestQRDataURL (on_status_update s u) = latestQRDataURL s.
Proof.
  unfold on_status_update.
  destruct (_ && _); split; reflexivity.
Qed.

Lemma on_messages_update_frame (updates : list status_update) (s : server) :
  connectionState (on_messages_update s updates) = connectionState s
  /\ latestQRDataURL (on_messages_update s updates) = latestQRDataURL s.
Proof.
  revert s. unfold on_messages_update.
  induction updates as [|u rest IH]; intros s; [split; reflexivity|].
  cbn [fold_left]. destruct (IH (on_status_update s u)) as [-> ->].
  apply on_status_update_frame.
Qed.

Lemma same_membership (A B : gset jsval) (j : jsval) :
  bool_decide (j ∈ A) = bool_decide (j ∈ B) -> j ∈ A <-> j ∈ B.
Proof.
  intros Heq. rewrite <- (bool_decide_spec (j ∈ A)), Heq. apply bool_decide_spec.
Qed.

Lemma membership_implied (A B : gset jsval) (j : jsval) :
  (bool_decide (j ∈ A) = true -> bool_decide (j ∈ B) = true) -> j ∈ A -> j ∈ B.
Proof.
  intros Himp Hin. apply (bool_decide_eq_true_1 (j ∈ B)).
  apply Himp, bool_decide_eq_true_2, Hin.
Qed.

Lemma acked_Permutation (us us' : list status_update) (j : jsval) :
  Permutation us us' -> acked us j = acked us' j.
Proof.
  unfold acked. induction 1 as [|u l l' _ IH|u v l|l l' l'' _ IH1 _ IH2]; cbn.
  - reflexivity.
  - rewrite IH. reflexivity.
  - rewrite !orb_assoc. f_equal. apply orb_comm.
  - congruence.
Qed.

Lemma on_messages_update_determined (us us' : list status_update) (s : server) :
  (forall j, acked us j = acked us' j) ->
  on_messages_update s us = on_messages_update s us'.
Proof.
  intros Hsame. apply server_ext.
  - rewrite (proj1 (on_messages_update_frame us s)),
      (proj1 (on_messages_update_frame us' s)). reflexivity.
  - rewrite (proj2 (on_messages_update_frame us s)),
      (proj2 (on_messages_update_frame us' s)). reflexivity.
  - apply map_eq. intros j.
    rewrite (proj1 (on_messages_update_batch us s j)),
      (proj1 (on_messages_update_batch us' s j)), Hsame. reflexivity.
  - apply set_eq. intros j. apply same_membership.
    rewrite (proj2 (on_messages_update_batch us s j)),
      (proj2 (on_messages_update_batch us' s j)), Hsame. reflexivity.
Qed.

(** X4. Within one [messages.update] batch neither the order of the updates
    nor their repetition matters: a reordered batch leaves the same state,
    and delivering the batch a second time changes nothing more. *)
Theorem messages_update_order_free (us us' : list status_update) (s : server) :
  Permutation us us' ->
  on_messages_update s us = on_messages_update s us'
  /\ on_messages_update (on_messages_update s us) us = on_messages_update s us.
Proof.
  intros Hperm. split.
  - apply on_messages_update_determined. intros j. apply acked_Permutation, Hperm.
  - apply server_ext.
    + rewrite (proj1 (on_messages_update_frame us _)). reflexivity.
    + rewrite (proj2 (on_messages_update_frame us _)). reflexivity.
    + apply map_eq. intros j.
      rewrite (proj1 (on_messages_update_batch us (on_messages_update s us) j)).
      rewrite (proj2 (on_messages_update_batch us s j)).
      rewrite (proj1 (on_messages_update_batch us s j)).
      destruct (truthy j), (bool_decide (j ∈ deleteOnDelivery s)), (acked us j);
        reflexivity.
    + apply set_eq. intros j. apply same_membership.
      rewrite (proj2 (on_messages_update_batch us (on_messages_update s us) j)).
      rewrite (proj2 (on_messages_update_batch us s j)).
      destruct (truthy j), (bool_decide (j ∈ deleteOnDelivery s)), (acked us j);
        reflexivity.
Qed.

Lemma messages_update_order_free_witness :
  on_messages_update armed_example
    [{| su_id := JStr "3EB0A1"; su_status := JNum 2 |};
     {| su_id := JStr "3EB0A1"; su_status := JNum 3 |}]
  = on_messages_update armed_example
      [{| su_id := JStr "3EB0A1"; su_status := JNum 3 |};
       {| su_id := JStr "3EB0A1"; su_status := JNum 2 |}].
Proof.
  apply (messages_update_order_free _ _ armed_example). apply perm_swap.
Defined.

(** X5. A [messages.update] batch only ever removes: every record and every
    flag it leaves was there before, a record disappears only together with
    its flag, and the connection state and the pairing artifact are not
    touched. *)
Theorem messages_update_only_removes (us : list status_update) (s : server) :
  sentStore (on_messages_update s us) ⊆ sentStore s
  /\ deleteOnDelivery (on_messages_update s us) ⊆ deleteOnDelivery s
  /\ (forall j, is_Some (sentStore s !! j) ->
        sentStore (on_messages_update s us) !! j = None ->
        j ∈ deleteOnDelivery s /\ j ∉ deleteOnDelivery (on_messages_update s us))
  /\ connectionState (on_messages_update s us) = connectionState s
  /\ latestQRDataURL (on_messages_update s us) = latestQRDataURL s.
Proof.
  split; [|split; [|split; [|apply on_messages_update_frame]]].
  - apply map_subseteq_spec. intros j x.
    rewrite (proj1 (on_messages_update_batch us s j)).
    destruct (_ && _); [discriminate | auto].
  - intros j. apply membership_implied.
    rewrite (proj2 (on_messages_update_batch us s j)).
    destruct (bool_decide (j ∈ deleteOnDelivery s)); cbn; auto.
  - intros j [x Hx].
    rewrite (proj1 (on_messages_update_batch us s j)), Hx.
    intros Hgone.
    assert (Hhit : truthy j && bool_decide (j ∈ deleteOnDelivery s) && acked us j = true)
      by (destruct (_ && _); [reflexivity | discriminate]).
    apply andb_true_iff in Hhit as [Hhit Hack].
    apply andb_true_iff in Hhit as [Ht Hin].
    split; [apply bool_decide_eq_true in Hin; exact Hin|].
    apply (bool_decide_eq_false_1 (j ∈ deleteOnDelivery (on_messages_update s us))).
    rewrite (proj2 (on_messages_update_batch us s j)), Ht, Hack.
    apply andb_false_r.
Qed.

Lemma messages_update_only_removes_witness :
  JStr "3EB0A1" ∈ deleteOnDelivery armed_example
  /\ JStr "3EB0A1" ∉ deleteOnDelivery
       (on_messages_update armed_example
          [{| su_id := JStr "3EB0A1"; su_status := JNum 3 |}]).
Proof.
  refine (proj1 (proj2 (proj2 (messages_update_only_removes
    [{| su_id := JStr "3EB0A1"; su_status := JNum 3 |}] armed_example)))
    (JStr "3EB0A1") _ _).
  - exists (OText "226700000@s.whatsapp.net" (JStr "hi")). apply lookup_singleton_eq.
  - reflexivity.
Defined.

Lemma post_delete_cases (id : jsval) (s : server) :
  post_delete id s
  = if truthy id
    then (Deleted (bool_decide (is_Some (sentStore s !! id))),
          set_deleteOnDelivery (deleteOnDelivery s ∖ {[id]})
            (set_sentStore (delete id (sentStore s)) s),
          [])
    else (BadRequest "messageId required", s, []).
Proof.
  destruct (truthy id) eqn:Ht;
    [apply post_delete_run | apply post_delete_missing]; exact Ht.
Qed.

(** X6. [POST /delete] touches one identifier and is idempotent: records
    and flags of other identifiers, the connection state and the artifact
    stay as they were, the answer [removed] tells whether the record was
    there, and a repeated request finds nothing to remove and changes
    nothing. *)
Theorem delete_local_and_idempotent (id : jsval) (s : server) :
  let s1 := state_of (post_delete id s) in
  (forall j, j <> id ->
     sentStore s1 !! j = sentStore s !! j
     /\ (j ∈ deleteOnDelivery s1 <-> j ∈ deleteOnDelivery s))
  /\ connectionState s1 = connectionState s
  /\ latestQRDataURL s1 = latestQRDataURL s
  /\ (response_of (post_delete id s) = Deleted true <->
      truthy id = true /\ is_Some (sentStore s !! id))
  /\ state_of (post_delete id s1) = s1
  /\ response_of (post_delete id s1) <> Deleted true.
Proof.
  cbn zeta. rewrite (post_delete_cases id s).
  destruct (truthy id) eqn:Ht; unfold response_of, state_of; cbn [fst snd].
  - split; [|split; [|split; [|split; [|split]]]]; try reflexivity.
    + intros j Hne. cbn. rewrite lookup_delete_ne by congruence.
      split; [reflexivity | set_solver].
    + split.
      * intros Hr. injection Hr as Hr. apply bool_decide_eq_true in Hr. auto.
      * intros [_ Hsome]. rewrite bool_decide_eq_true_2 by exact Hsome. reflexivity.
    + rewrite post_delete_cases, Ht. cbn [fst snd].
      apply (deleted_state_fixed id s).
    + rewrite post_delete_cases, Ht. cbn [fst snd]. cbn.
      rewrite lookup_delete_eq. rewrite bool_decide_eq_false_2; [discriminate|].
      intros [x Hx]. discriminate.
  - rewrite post_delete_cases, Ht. cbn [fst snd].
    split; [|split; [|split; [|split; [|split]]]]; try reflexivity;
      try discriminate.
    + intros j _. split; reflexivity.
    + split; [discriminate | intros [H _]; discriminate].
Qed.

Lemma delete_local_and_idempotent_witness :
  sentStore (state_of (post_delete (JStr "OTHER") armed_example)) !! JStr "3EB0A1"
  = sentStore armed_example !! JStr "3EB0A1".
Proof.
  refine (proj1 (proj1 (delete_local_and_idempotent (JStr "OTHER") armed_example)
    (JStr "3EB0A1") _)).
  discriminate.
Defined.

Lemma on_connection_tracker (u : update) (s : server) :
  sentStore (fst (on_connection u s)) = sentStore s
  /\ deleteOnDelivery (fst (on_connection u s)) = deleteOnDelivery s.
Proof. unfold on_connection. destruct (u_connection u) as [[]|]; split; reflexivity. Qed.

Lemma on_connection_update_tracker (render : string -> option string)
    (s : server) (u : update) :
  sentStore (fst (on_connection_update render s u)) = sentStore s
  /\ deleteOnDelivery (fst (on_connection_update render s u)) = deleteOnDelivery s.
Proof.
  unfold on_connection_update.
  destruct (string_truthy (u_qr u)) as [qr|]; [|apply on_connection_tracker].
  destruct (render qr) as [url|]; [|split; reflexivity].
  destruct (on_connection_tracker u
    (set_connection Connecting
       (set_authenticated false (set_latestQRDataURL (Some url) s)))) as [-> ->].
  split; reflexivity.
Qed.

Lemma armed_are_recorded_status (s : server) (u : status_update) :
  armed_are_recorded s -> armed_are_recorded (on_status_update s u).
Proof.
  unfold armed_are_recorded, on_status_update. intros Hs.
  destruct (_ && _); [|exact Hs].
  cbn. intros j Hj.
  assert (j <> su_id u) by set_solver.
  rewrite lookup_delete_ne by congruence. apply Hs. set_solver.
Qed.

Lemma armed_are_recorded_perform (E : collaborators) (WEBHOOK_URL : string) (now : Z)
    (answer : payload -> fetch_result) (s : server) (op : operation) :
  armed_are_recorded s -> armed_are_recorded (perform E WEBHOOK_URL now answer s op).
Proof.
  intros Hs. destruct op as [body|body|id|updates|u|msgs]; cbn [perform].
  - destruct (post_sendMessage_cases E body s) as [(b & -> & Hm & Hd) | ->];
      [|exact Hs].
    rewrite (post_sendMessage_run E b s Hm Hd). cbn zeta.
    destruct (sock_sendMessage E _ _) as [m|key_id]; [exact Hs|].
    unfold state_of, text_recorded. cbn [fst snd].
    intros j Hj.
    destruct (truthy (b_delete b)); cbn in *.
    + destruct (decide (j = default JUndefined key_id)) as [->|Hne].
      * rewrite lookup_insert_eq. eauto.
      * rewrite lookup_insert_ne by congruence. apply Hs. set_solver.
    + destruct (decide (j = default JUndefined key_id)) as [->|Hne].
      * rewrite lookup_insert_eq. eauto.
      * rewrite lookup_insert_ne by congruence. apply Hs, Hj.
  - destruct (sendViewOnceMedia_post E body s) as (o & [Hflags Hstore] & Hresp).
    destruct (sendViewOnceMedia_strong_post E body s) as (o' & Hkeep & Hresp').
    destruct (is_sent (response_of (post_sendViewOnceMedia E body s))) eqn:Hsent.
    + destruct o as [[]|]; rewrite Hresp in Hsent; try discriminate.
      specialize (Hstore _ _ eq_refl).
      intros j Hj. rewrite Hflags in Hj. rewrite Hstore.
      destruct (decide (j = id)) as [->|Hne].
      * rewrite lookup_insert_eq. eauto.
      * rewrite lookup_insert_ne by congruence. apply Hs, Hj.
    + destruct o' as [[]|]; rewrite Hresp' in Hsent; try discriminate;
        cbn in Hkeep; rewrite Hkeep; exact Hs.
  - rewrite post_delete_cases. destruct (truthy id); [|exact Hs].
    unfold armed_are_recorded, state_of. cbn. intros j Hj.
    assert (j <> id) by set_solver.
    rewrite lookup_delete_ne by congruence. apply Hs. set_solver.
  - revert s Hs. unfold on_messages_update.
    induction updates as [|u rest IH]; intros s Hs; [exact Hs|].
    cbn [fold_left]. apply IH, armed_are_recorded_status, Hs.
  - intros j. destruct (on_connection_update_tracker (QRCode_toDataURL E) s u) as [-> ->].
    apply Hs.
  - exact Hs.
Qed.

(** X7. In every state the full server reaches from its initial state,
    through any sequence of send requests, delete requests, delivery
    updates, connection updates and inbound messages, every armed
    identifier has a record in the sent store. *)
Theorem armed_always_recorded (E : collaborators) (WEBHOOK_URL : string) (now : Z)
    (answer : payload -> fetch_result) (ops : list operation) :
  armed_are_recorded (perform_all E WEBHOOK_URL now answer initial_server ops).
Proof.
  assert (Hinit : armed_are_recorded initial_server).
  { intros j Hj. cbn in Hj. set_solver. }
  revert Hinit. generalize initial_server. unfold perform_all.
  induction ops as [|op rest IH]; intros s Hs; [exact Hs|].
  cbn [fold_left]. apply IH, armed_are_recorded_perform, Hs.
Qed.

(** ** Runs of the connection manager *)

Lemma run_updates_app (render : string -> option string) (s : server)
    (us vs : list update) :
  run_updates render s (us ++ vs) = run_updates render (run_updates render s us) vs.
Proof. unfold run_updates. apply fold_left_app. Qed.

Lemma run_updates_cons (render : string -> option string) (s : server)
    (u : update) (us : list update) :
  run_updates render s (u :: us)
  = run_updates render (fst (on_connection_update render s u)) us.
Proof. reflexivity. Qed.




Lemma verdict_step (render : string -> option string) (s : server) (u : update) :
  authenticated (connectionState (fst (on_connection_update render s u)))
  = default (authenticated (connectionState s)) (verdict render u).
Proof.
  unfold on_connection_update, verdict.
  destruct (string_truthy (u_qr u)) as [qr|].
  - destruct (render qr) as [url|]; [|reflexivity].
    rewrite on_connection_authenticated.
    destruct (u_connection u) as [[]|]; reflexivity.
  - rewrite on_connection_authenticated.
    destruct (u_connection u) as [[]|]; reflexivity.
Qed.

Lemma verdict_none_run (render : string -> option string) (us : list update) (s : server) :
  Forall (fun v => verdict render v = None) us ->
  authenticated (connectionState (run_updates render s us))
  = authenticated (connectionState s).
Proof.
  revert s. unfold run_updates.
  induction us as [|u rest IH]; intros s Hus; [reflexivity|].
  inversion Hus as [|? ? Hu Hrest]; subst. cbn [fold_left].
  rewrite (IH _ Hrest), verdict_step, Hu. reflexivity.
Qed.

(** X9. In the pairing-code server ([src/index.js], lines 85-105), whose
    handler has no [await] and so runs each update to its end before the
    next one, whether the server counts as authenticated after a run of
    connection updates is decided by the last update that decides at all:
    [open] sets it, [close] and a pairing code without [open] clear it,
    and a bare [connecting] update or an update without these fields
    leaves it as it is. *)
Theorem last_verdict_decides (s : server) (before after : list update)
    (u : update) (b : bool) :
  verdict Some u = Some b ->
  Forall (fun v => verdict Some v = None) after ->
  authenticated (connectionState (run_updates Some s (before ++ u :: after))) = b
  /\ (b = true <-> u_connection u = Some Open)
  /\ Forall (fun v => string_truthy (u_qr v) = None
                      /\ u_connection v <> Some Open
                      /\ u_connection v <> Some Close) after.
Proof.
  intros Hu Hafter. split; [|split].
  - rewrite run_updates_app, run_updates_cons, (verdict_none_run _ _ _ Hafter).
    rewrite verdict_step, Hu. reflexivity.
  - unfold verdict in Hu.
    destruct (string_truthy (u_qr u)), (u_connection u) as [[]|];
      inversion Hu; subst; split; congruence.
  - apply (Forall_impl _ _ _ Hafter). intros v Hv. unfold verdict in Hv.
    destruct (string_truthy (u_qr v)), (u_connection v) as [[]|];
      try discriminate Hv; repeat split; congruence.
Qed.

Lemma last_verdict_decides_witness :
  authenticated (connectionState
    (run_updates Some initial_server
       [open_update; qr_update "K3J9-QA7B"; connecting_update])) = false.
Proof.
  refine (proj1 (last_verdict_decides initial_server
    [open_update] [connecting_update] (qr_update "K3J9-QA7B") false eq_refl _)).
  repeat constructor.
Defined.

Lemma deliver_timers (render : string -> option string) (p : process) (u : update) :
  timers (deliver render p u)
  = (timers p ++ if reconnecting render u then [(InitSocket, 2000%Z)] else [])%list
  /\ sockets (deliver render p u) = sockets p.
Proof.
  unfold deliver, on_connection_update, reconnecting.
  destruct (string_truthy (u_qr u)) as [qr|].
  - destruct (render qr) as [url|].
    + rewrite bool_decide_eq_true_2 by eauto. cbn [andb].
      unfold on_connection.
      destruct (u_connection u) as [[]|]; cbn; try (split; reflexivity).
      destruct (shouldReconnect u); split; reflexivity.
    + rewrite bool_decide_eq_false_2 by (intros [x Hx]; discriminate).
      cbn. split; reflexivity.
  - cbn [andb]. unfold on_connection.
    destruct (u_connection u) as [[]|]; cbn; try (split; reflexivity).
    destruct (shouldReconnect u); split; reflexivity.
Qed.

(** X10. Reconnects are not deduplicated: over any run of connection
    updates every disconnect with a status code other than 401 adds its own
    2000 ms [initSocket] timer, also while earlier ones are still pending,
    and nothing else adds or removes a timer or builds a socket. *)
Theorem reconnect_timers_accumulate (render : string -> option string)
    (us : list update) (p : process) :
  timers (deliver_all render p us)
  = (timers p
     ++ repeat (InitSocket, 2000%Z) (length (filter (reconnecting render) us)))%list
  /\ sockets (deliver_all render p us) = sockets p.
Proof.
  revert p. unfold deliver_all.
  induction us as [|u rest IH]; intros p; cbn [fold_left].
  - rewrite app_nil_r. split; reflexivity.
  - destruct (IH (deliver render p u)) as [-> ->].
    destruct (deliver_timers render p u) as [-> ->].
    split; [|reflexivity].
    rewrite (filter_cons (reconnecting render)).
    destruct (reconnecting render u); cbn.
    + rewrite <- app_assoc. reflexivity.
    + rewrite app_nil_r. reflexivity.
Qed.

(** X11. Connection updates never touch the message tracker: after any run
    of them the sent store and the flag set are what they were. *)
Theorem connection_updates_leave_tracker (render : string -> option string)
    (us : list update) (s : server) :
  sentStore (run_updates render s us) = sentStore s
  /\ deleteOnDelivery (run_updates render s us) = deleteOnDelivery s.
Proof.
  revert s. unfold run_updates.
  induction us as [|u rest IH]; intros s; [split; reflexivity|].
  cbn [fold_left]. destruct (IH (fst (on_connection_update render s u))) as [-> ->].
  apply on_connection_update_tracker.
Qed.

(** ** Inbound relay *)

Lemma string_truthy_nonempty (o : option string) (t : string) :
  string_truthy o = Some t -> o = Some t /\ t <> "".
Proof.
  destruct o as [s|]; [|discriminate]. cbn.
  destruct (String.eqb_spec s "") as [->|Hne]; [discriminate|].
  intros [= ->]. auto.
Qed.

(** X12. Over a batch of inbound messages with a webhook configured, the
    POSTs go out in the order of the messages, one for each message that is
    not the gateway's own, each to the configured address with the
    serialized message, whose [fromMe] field is therefore always false; a
    failed POST does not stop the ones after it.  With no webhook
    configured the handler does nothing at all. *)
Theorem relay_in_order (WEBHOOK_URL : string) (now : Z)
    (answer : payload -> fetch_result) (s : server) (msgs : list inbound) :
  (WEBHOOK_URL <> "" ->
     posts_of (concat (snd (on_messages_upsert WEBHOOK_URL now answer s msgs)))
     = map (fun m => HttpPost WEBHOOK_URL (Serialized (serializeMessage now m)))
         (filter (fun m => negb (fromMe m)) msgs)
     /\ Forall (fun m => e_fromMe (serializeMessage now m) = false)
          (filter (fun m => negb (fromMe m)) msgs))
  /\ (WEBHOOK_URL = "" ->
      concat (snd (on_messages_upsert WEBHOOK_URL now answer s msgs)) = []).
Proof.
  unfold on_messages_upsert, posts_of. cbn [snd]. split.
  - intros Hurl. induction msgs as [|msg rest [IHposts IHmine]];
      [split; [reflexivity | constructor]|].
    cbn [map concat]. rewrite filter_app, IHposts.
    rewrite (filter_cons (fun m => negb (fromMe m))).
    unfold relay_one at 1.
    destruct (fromMe msg) eqn:Hmine; cbn [negb].
    + split; [reflexivity | exact IHmine].
    + destruct (String.eqb_spec WEBHOOK_URL "") as [|_]; [contradiction|].
      split.
      * destruct (answer _) as [m|[] status body]; reflexivity.
      * cbn. constructor; [exact Hmine | exact IHmine].
  - intros ->. induction msgs as [|msg rest IH]; [reflexivity|].
    cbn [map concat]. rewrite IH. unfold relay_one.
    destruct (fromMe msg); reflexivity.
Qed.

Lemma relay_in_order_witness :
  posts_of (concat (snd (on_messages_upsert "https://hook.example/in" 0
              (fun _ => FetchResp false 503 "") initial_server
              [inbound_example false; inbound_example true; inbound_example false])))
  = [HttpPost "https://hook.example/in" (Serialized (serializeMessage 0 (inbound_example false)));
     HttpPost "https://hook.example/in" (Serialized (serializeMessage 0 (inbound_example false)))].
Proof.
  refine (proj1 (proj1 (relay_in_order "https://hook.example/in" 0
    (fun _ => FetchResp false 503 "") initial_server
    [inbound_example false; inbound_example true; inbound_example false]) _)).
  discriminate.
Defined.

(** X13. The envelope [serializeMessage] builds never carries an empty
    text, an empty caption or an empty type.  Its type is the name of the
    first entry of the message, and [unknown] when the message is missing,
    has no entry, or has a first entry with an empty name.  A text content
    is the non-empty [conversation], or else the non-empty text of the
    extended text message; a caption content is the caption of the image
    message, or else of the video message, with an empty or missing
    caption turned into [null], and it is built only when there is no such
    text; there is no content only when the message has none of the
    four. *)
Theorem envelope_never_empty (now : Z) (msg : inbound) :
  let parts := default [] (i_message msg) in
  let e := serializeMessage now msg in
  e_type e <> ""
  /\ (forall p rest, parts = p :: rest -> part_name p <> "" -> e_type e = part_name p)
  /\ (parts = [] \/ (exists p rest, parts = p :: rest /\ part_name p = "") ->
      e_type e = "unknown")
  /\ match e_content e with
     | TextContent t =>
         t <> ""
         /\ (conversation_of parts = Some t
             \/ (string_truthy (conversation_of parts) = None
                 /\ extended_text_of parts = Some t))
     | CaptionContent c =>
         c <> Some ""
         /\ string_truthy (conversation_of parts) = None
         /\ string_truthy (extended_text_of parts) = None
         /\ exists caption,
              (image_of parts = Some caption
               \/ (image_of parts = None /\ video_of parts = Some caption))
              /\ c = string_truthy caption
     | NoContent =>
         string_truthy (conversation_of parts) = None
         /\ string_truthy (extended_text_of parts) = None
         /\ image_of parts = None /\ video_of parts = None
     end.
Proof.
  cbn zeta. unfold serializeMessage. cbn [e_type e_content].
  split; [|split; [|split]].
  - destruct (default [] (i_message msg)) as [|p rest]; [discriminate|].
    destruct (String.eqb_spec (part_name p) "") as [|Hne]; [discriminate | exact Hne].
  - intros p rest -> Hne.
    destruct (String.eqb_spec (part_name p) "") as [|_]; [contradiction | reflexivity].
  - intros [-> | (p & rest & -> & Hname)]; [reflexivity|].
    rewrite Hname. reflexivity.
  - assert (Hcaption : forall c, string_truthy c <> Some "").
    { intros c Hc. apply string_truthy_nonempty in Hc as [_ Hne]. apply Hne. reflexivity. }
    destruct (string_truthy (conversation_of _)) as [t|] eqn:Hc.
    { apply string_truthy_nonempty in Hc as [Hc Hne]. auto. }
    destruct (string_truthy (extended_text_of _)) as [t|] eqn:He.
    { apply string_truthy_nonempty in He as [He Hne]. auto. }
    destruct (image_of _) as [c|] eqn:Himg.
    { split; [apply Hcaption|]. split; [reflexivity|]. split; [reflexivity|].
      exists c. auto. }
    destruct (video_of _) as [c|] eqn:Hvid; [|auto].
    split; [apply Hcaption|]. split; [reflexivity|]. split; [reflexivity|].
    exists c. auto.
Qed.

Lemma envelope_never_empty_witness :
  e_type (serializeMessage 0
            {| i_key := None; i_pushName := None; i_messageTimestamp := None;
               i_timestamp := None;
               i_message := Some [ImageMessage (Some "")] |}) = "imageMessage"
  /\ e_type (serializeMessage 0
               {| i_key := None; i_pushName := None; i_messageTimestamp := None;
                  i_timestamp := None;
                  i_message := Some [OtherPart ""; Conversation "salut"] |}) = "unknown".
Proof.
  split.
  - refine (proj1 (proj2 (envelope_never_empty 0
      {| i_key := None; i_pushName := None; i_messageTimestamp := None;
         i_timestamp := None; i_message := Some [ImageMessage (Some "")] |}))
      (ImageMessage (Some "")) [] eq_refl _).
    discriminate.
  - refine (proj1 (proj2 (proj2 (envelope_never_empty 0
      {| i_key := None; i_pushName := None; i_messageTimestamp := None;
         i_timestamp := None;
         i_message := Some [OtherPart ""; Conversation "salut"] |}))) _).
    right. exists (OtherPart ""), [Conversation "salut"]. split; reflexivity.
Defined.

(** ** Credential persistence and restore *)

Lemma table_after_ok (table : gmap string string) (env : creds_env) (blob : string) :
  save_ok env = true -> read_back env = Some blob -> db_ok env = true ->
  table_after true table env = <["session" := blob]> table.
Proof.
  intros Hsave Hread Hdb. unfold table_after, saveStateAndDB, saveSessionToDB.
  rewrite Hsave, Hread, Hdb. reflexivity.
Qed.

(** X14. Persist and restore: once a credential change has been saved with
    every step succeeding, a later boot with the database reachable writes
    exactly that blob into the local session file, whatever the file held
    before, provided the blob is not the empty string; an empty blob is
    read back as no session, and the local file is kept or created as
    [{}]. *)
Theorem persist_then_restore (table : gmap string string) (env : creds_env)
    (blob : string) (file : option string) :
  save_ok env = true -> read_back env = Some blob -> db_ok env = true ->
  let table' := table_after true table env in
  (blob <> "" -> bootstrapSessionFile true true table' file = Some blob)
  /\ (blob = "" ->
      bootstrapSessionFile true true table' file = Some (default "{}" file)).
Proof.
  intros Hsave Hread Hdb. cbn zeta.
  rewrite (table_after_ok _ _ _ Hsave Hread Hdb).
  unfold bootstrapSessionFile, loadSessionFromDB. cbn [negb].
  rewrite lookup_insert_eq. cbn [string_truthy]. split.
  - intros Hne. destruct (String.eqb_spec blob "") as [|_]; [contradiction|reflexivity].
  - intros ->. cbn. destruct file; reflexivity.
Qed.

Lemma persist_then_restore_witness :
  bootstrapSessionFile true true (table_after true ∅ (creds_ok "{a}")) (Some "{old}")
  = Some "{a}".
Proof.
  refine (proj1 (persist_then_restore ∅ (creds_ok "{a}") "{a}" (Some "{old}")
    eq_refl eq_refl eq_refl) _).
  discriminate.
Defined.

Lemma table_after_other (pool : bool) (table : gmap string string)
    (env : creds_env) (k : string) :
  k <> "session" -> table_after pool table env !! k = table !! k.
Proof.
  intros Hk. unfold table_after, saveStateAndDB, saveSessionToDB.
  destruct (db_ok env); [|reflexivity].
  destruct (save_ok env); [|reflexivity].
  destruct (read_back env) as [blob|]; [|reflexivity].
  destruct pool; [|reflexivity].
  cbn. rewrite lookup_insert_ne by congruence. reflexivity.
Qed.

Lemma table_after_all_other (pool : bool) (envs : list creds_env)
    (table : gmap string string) (k : string) :
  k <> "session" -> table_after_all pool table envs !! k = table !! k.
Proof.
  intros Hk. revert table. unfold table_after_all.
  induction envs as [|e rest IH]; intros table; [reflexivity|].
  cbn [fold_left]. rewrite IH. apply table_after_other, Hk.
Qed.

(** X15. Last write wins: after any sequence of credential changes, the
    session row holds the blob of the last change whose three steps
    succeeded, however many failed ones follow it, there is still one row
    per id, and no other row of the table is touched. *)
Theorem last_write_wins (table : gmap string string)
    (before after : list creds_env) (env : creds_env) (blob : string) :
  save_ok env = true -> read_back env = Some blob -> db_ok env = true ->
  Forall (fun e => save_ok e && bool_decide (is_Some (read_back e)) && db_ok e = false) after ->
  let table' := table_after_all true table (before ++ env :: after) in
  table' !! "session" = Some blob
  /\ forall k, k <> "session" -> table' !! k = table !! k.
Proof.
  intros Hsave Hread Hdb Hafter. cbn zeta.
  split; [|intros k Hk; apply table_after_all_other, Hk].
  unfold table_after_all. rewrite fold_left_app. cbn [fold_left].
  rewrite (table_after_ok _ _ _ Hsave Hread Hdb).
  generalize (fold_left (table_after true) before table). intros t.
  assert (Hkeep : forall t0,
    fold_left (table_after true) after t0 = t0).
  { induction Hafter as [|e rest He _ IH]; intros t0; [reflexivity|].
    cbn [fold_left]. rewrite <- (IH t0) at 2. f_equal.
    unfold table_after, saveStateAndDB, saveSessionToDB.
    destruct (db_ok e); [|reflexivity].
    destruct (save_ok e); [|reflexivity].
    destruct (read_back e) as [b|]; [|reflexivity].
    rewrite bool_decide_eq_true_2 in He by eauto. discriminate. }
  rewrite Hkeep. apply lookup_insert_eq.
Qed.

Lemma last_write_wins_witness :
  table_after_all true ∅
    [creds_ok "{a}"; creds_ok "{b}";
     {| save_ok := false; read_back := Some "{c}"; state_json := "{c}"; db_ok := true |}]
  !! "session" = Some "{b}".
Proof.
  refine (proj1 (last_write_wins ∅ [creds_ok "{a}"] [_] (creds_ok "{b}") "{b}"
    eq_refl eq_refl eq_refl _)).
  repeat constructor.
Defined.

(** ** The multi-number variant *)

Lemma sessions_handler_number (c : MultiNumber.closure)
    (sessions : gmap jsval MultiNumber.session) (u : update) :
  MultiNumber.number (fst (MultiNumber.on_connection_update c sessions u))
  = MultiNumber.number c.
Proof.
  unfold MultiNumber.on_connection_update.
  destruct (string_truthy (u_qr u)); destruct (u_connection u) as [[]|]; reflexivity.
Qed.

Lemma sessions_handler_entry (c : MultiNumber.closure)
    (sessions : gmap jsval MultiNumber.session) (u : update) :
  (forall s, sessions !! MultiNumber.number c = Some s -> Sessions.entry_consistent s) ->
  forall s, snd (MultiNumber.on_connection_update c sessions u) !! MultiNumber.number c = Some s ->
    Sessions.entry_consistent s.
Proof.
  intros Hold s. unfold MultiNumber.on_connection_update.
  destruct (string_truthy (u_qr u)) as [qr|];
    destruct (u_connection u) as [[]|]; cbn;
    rewrite ?lookup_insert_eq; try (apply Hold);
    intros [= <-]; intros Hauth; try discriminate Hauth; split; reflexivity.
Qed.

(** X16. In the multi-number variant, the entry of a number in the sessions
    map stays consistent from the moment [getSocketForNumber] builds its
    socket through any run of that socket's connection updates: whenever
    the entry says authenticated, it says [open] and holds no pairing code,
    so neither route can answer a pairing code together with
    [authenticated: true]. *)
Theorem sessions_entry_consistent (sessions : gmap jsval MultiNumber.session)
    (number : jsval) (fresh : string) (c : MultiNumber.closure) (us : list update) :
  snd (Sessions.getSocketForNumber sessions number fresh) = Some c ->
  let sessions' := snd (fst (Sessions.getSocketForNumber sessions number fresh)) in
  forall s, snd (Sessions.run c sessions' us) !! number = Some s ->
    Sessions.entry_consistent s.
Proof.
  intros Hbuilt. cbn zeta.
  assert (Hc : MultiNumber.number c = number
               /\ forall s, snd (fst (Sessions.getSocketForNumber sessions number fresh))
                              !! MultiNumber.number c = Some s ->
                            Sessions.entry_consistent s).
  { revert Hbuilt. unfold Sessions.getSocketForNumber.
    destruct (sessions !! number) as [old|];
      [destruct (Sessions.reusable old); [discriminate|]|];
      cbn; intros [= <-]; cbn; (split; [reflexivity|]);
      intros s; rewrite lookup_insert_eq; intros [= <-] Hauth; discriminate Hauth. }
  destruct Hc as [<- Hstart]. revert Hstart.
  generalize (snd (fst (Sessions.getSocketForNumber sessions (MultiNumber.number c) fresh))).
  clear Hbuilt. intros ss. revert c ss. unfold Sessions.run.
  induction us as [|u rest IH]; intros c ss Hstart s; cbn [fold_left fst snd].
  - apply Hstart.
  - rewrite <- (sessions_handler_number c ss u).
    destruct (MultiNumber.on_connection_update c ss u) as [c' ss'] eqn:Hstep.
    cbn [fst snd]. apply IH.
    pose proof (sessions_handler_entry c ss u Hstart) as Hnext.
    pose proof (sessions_handler_number c ss u) as Hnum.
    rewrite Hstep in Hnext, Hnum. cbn [fst snd] in Hnext, Hnum.
    rewrite Hnum. exact Hnext.
Qed.

Lemma sessions_entry_consistent_witness :
  Sessions.entry_consistent
    {| MultiNumber.pairingCode := None; MultiNumber.s_authenticated := true;
       MultiNumber.s_connection := Open |}.
Proof.
  refine (sessions_entry_consistent ∅ (JStr "22670") "K3J9QA"
    {| MultiNumber.number := JStr "22670"; MultiNumber.code := "K3J9QA";
       MultiNumber.local := {| authenticated := false; connection := Connecting |} |}
    [qr_update "abc"; open_update; close_update None] eq_refl _ _).
  reflexivity.
Defined.







(** ** The pairing servers *)

Lemma pair_run_settled (phoneNumber : jsval) (evs : list Pair.event) (w : Pair.waiting) :
  Pair.resolved w = true ->
  Pair.run phoneNumber w evs = w.
Proof.
  intros Hw. unfold Pair.run.
  induction evs as [|ev rest IH]; [reflexivity|].
  cbn [fold_left]. replace (Pair.step phoneNumber w ev) with w; [exact IH|].
  destruct ev as [u|code|err]; unfold Pair.step; rewrite ?Hw, ?andb_false_r;
    reflexivity.
Qed.

Lemma pair_run_waiting (phoneNumber : jsval) (evs : list Pair.event) :
  Forall (fun ev => Pair.decisive ev = false) evs ->
  Pair.run phoneNumber (Pair.start true) evs = Pair.start true.
Proof.
  unfold Pair.run. induction 1 as [|ev rest Hev _ IH]; [reflexivity|].
  cbn [fold_left]. replace (Pair.step phoneNumber (Pair.start true) ev)
    with (Pair.start true); [exact IH|].
  destruct ev as [u|code|err]; cbn in *; [|reflexivity|discriminate].
  rewrite Hev. reflexivity.
Qed.

(** X19. [POST /pair] with a phone number is answered by the first event
    that settles the wait and by nothing else: the first [open] update
    gives 200 with the phone number, a failure of the pairing-code request
    before it gives the fixed 500, later events change nothing, and the
    handler is taken off [connection.update].  Until then the request
    stays unanswered; in particular the pairing code the engine issues is
    not an answer. *)
Theorem pair_first_event_answers (phoneNumber : jsval)
    (before after : list Pair.event) (ev : Pair.event) :
  truthy phoneNumber = true ->
  Forall (fun e => Pair.decisive e = false) before ->
  Pair.decisive ev = true ->
  Pair.post_pair true phoneNumber before = None
  /\ Pair.post_pair true phoneNumber (before ++ ev :: after)
     = Some (Pair.outcome_of phoneNumber ev)
  /\ Pair.listening (Pair.run phoneNumber (Pair.start true) (before ++ ev :: after))
     = false.
Proof.
  intros Hnum Hbefore Hev. unfold Pair.post_pair. rewrite Hnum. cbn [negb].
  rewrite (pair_run_waiting _ _ Hbefore). split; [reflexivity|].
  unfold Pair.run at 1 2. rewrite !fold_left_app. cbn [fold_left].
  fold (Pair.run phoneNumber (Pair.start true) before).
  rewrite (pair_run_waiting _ _ Hbefore).
  fold (Pair.run phoneNumber (Pair.step phoneNumber (Pair.start true) ev) after).
  assert (Hstep : Pair.resolved (Pair.step phoneNumber (Pair.start true) ev) = true
                  /\ Pair.listening (Pair.step phoneNumber (Pair.start true) ev) = false
                  /\ Pair.settled (Pair.step phoneNumber (Pair.start true) ev)
                     = Some (match ev with
                             | Pair.PairingCodeFailed err =>
                                 Pair.Rejected (Pair.RequestFailed err)
                             | _ => Pair.Resolved phoneNumber
                             end)).
  { destruct ev as [u|code|err]; cbn in *; [|discriminate|repeat split].
    rewrite Hev. repeat split. }
  destruct Hstep as (Hres & Hlisten & Hsettled).
  rewrite (pair_run_settled _ _ _ Hres), Hsettled, Hlisten.
  destruct ev; split; reflexivity.
Qed.

Lemma pair_first_event_answers_witness :
  Pair.post_pair true (JStr "22670")
    [Pair.PairingCodeIssued "ABCD1234"; Pair.ConnectionUpdate connecting_update;
     Pair.ConnectionUpdate open_update; Pair.PairingCodeFailed "timeout"]
  = Some (Pair.Connected (JStr "22670")).
Proof.
  refine (proj1 (proj2 (pair_first_event_answers (JStr "22670")
    [Pair.PairingCodeIssued "ABCD1234"; Pair.ConnectionUpdate connecting_update]
    [Pair.PairingCodeFailed "timeout"] (Pair.ConnectionUpdate open_update)
    eq_refl _ eq_refl))).
  repeat constructor.
Defined.

(** X20. Without a socket [waitForConnection] of [src/unnamed/part_000]
    rejects at once: [POST /pair] answers the fixed 500 whatever the engine
    does afterwards, the handler is never registered, and an [open] update
    does not turn the answer into a success. *)
Theorem pair_without_socket (phoneNumber : jsval) (evs : list Pair.event) :
  truthy phoneNumber = true ->
  Pair.post_pair false phoneNumber evs = Some Pair.CannotConnect
  /\ Pair.listening (Pair.run phoneNumber (Pair.start false) evs) = false.
Proof.
  intros Hnum. unfold Pair.post_pair. rewrite Hnum. cbn [negb].
  assert (Hinv : forall w,
    Pair.listening w = false ->
    Pair.settled w = Some (Pair.Rejected Pair.SocketNotInitialised) ->
    Pair.listening (Pair.run phoneNumber w evs) = false
    /\ Pair.settled (Pair.run phoneNumber w evs)
       = Some (Pair.Rejected Pair.SocketNotInitialised)).
  { unfold Pair.run. induction evs as [|ev rest IH]; intros w Hl Hs; [auto|].
    cbn [fold_left]. apply IH.
    - destruct ev as [u|code|err]; cbn; rewrite ?Hl; cbn; auto.
      destruct (Pair.resolved w); cbn; auto.
    - destruct ev as [u|code|err]; cbn; rewrite ?Hl; cbn; auto.
      destruct (Pair.resolved w); cbn; rewrite ?Hs; auto. }
  destruct (Hinv (Pair.start false) eq_refl eq_refl) as [Hl Hs].
  rewrite Hs. auto.
Qed.

Lemma pair_without_socket_witness :
  Pair.post_pair false (JStr "22670") [Pair.ConnectionUpdate open_update]
  = Some Pair.CannotConnect.
Proof.
  exact (proj1 (pair_without_socket (JStr "22670") [Pair.ConnectionUpdate open_update]
    eq_refl)).
Defined.

(** ** Presence *)

Lemma delay_not_negative (parse : string -> option Z) (v : jsval) (k : Presence.kind)
    (to : option string) :
  Presence.negative_delay (Presence.RevertAfter (Presence.delay parse v) k to) = false.
Proof.
  unfold Presence.delay, Presence.negative_delay.
  destruct (Presence.js_Number parse v) as [z|]; cbn; [|reflexivity].
  apply Z.ltb_ge. apply Z.le_max_l.
Qed.

(** X21. The presence routes set their revert timer only after the engine
    has accepted the announcement: a request answered ok sets exactly one,
    a request answered with an error sets none; the delay is never
    negative, a missing [durationSec] gives 10000 ms for [markOnline] and
    5000 ms for [markTyping], and [markTyping] without a destination is
    refused before anything is asked of the engine. *)
Theorem presence_revert_only_on_success (E : collaborators)
    (refuses : Presence.call -> option string) (parse : string -> option Z)
    (number jid durationSec : jsval) :
  let online := Presence.post_markOnline refuses parse durationSec in
  let typing := Presence.post_markTyping E refuses parse number jid durationSec in
  length (filter Presence.is_revert (snd online))
    = (if Presence.is_done (fst online) then 1 else 0)
  /\ length (filter Presence.is_revert (snd typing))
     = (if Presence.is_done (fst typing) then 1 else 0)
  /\ Forall (fun r => Presence.negative_delay r = false) (snd online ++ snd typing)
  /\ (durationSec = JUndefined ->
      (fst online = Presence.Done ->
         last (snd online) = Some (Presence.RevertAfter (Some 10000%Z)
                                     Presence.Unavailable None))
      /\ (fst typing = Presence.Done ->
         last (snd typing) = Some (Presence.RevertAfter (Some 5000%Z) Presence.Paused
                                     (Some (destination E number jid)))))
  /\ (truthy number = false -> truthy jid = false ->
      typing = (Presence.BadRequest "number or jid required", [])).
Proof.
  cbn zeta. unfold Presence.post_markOnline, Presence.post_markTyping.
  split; [|split; [|split; [|split]]].
  - destruct (refuses _); reflexivity.
  - destruct (negb (truthy number) && negb (truthy jid)); [reflexivity|].
    destruct (refuses (Presence.Subscribe _)); [reflexivity|].
    destruct (refuses (Presence.Announce Presence.Composing _)); reflexivity.
  - apply Forall_app. split.
    + destruct (refuses _); repeat constructor. apply delay_not_negative.
    + destruct (negb (truthy number) && negb (truthy jid)); [constructor|].
      destruct (refuses (Presence.Subscribe _)); [repeat constructor|].
      destruct (refuses (Presence.Announce Presence.Composing _)); repeat constructor.
      apply delay_not_negative.
  - intros ->. split.
    + destruct (refuses _); [discriminate | reflexivity].
    + destruct (negb (truthy number) && negb (truthy jid)); [discriminate|].
      destruct (refuses (Presence.Subscribe _)); [discriminate|].
      destruct (refuses (Presence.Announce Presence.Composing _));
        [discriminate | reflexivity].
  - intros -> ->. reflexivity.
Qed.

Lemma presence_revert_only_on_success_witness :
  Presence.post_markTyping example_engine (fun _ => None) (fun _ => None)
    JUndefined JUndefined (JNum (-3)%Z)
  = (Presence.BadRequest "number or jid required", []).
Proof.
  exact (proj2 (proj2 (proj2 (proj2
    (presence_revert_only_on_success example_engine (fun _ => None) (fun _ => None)
       JUndefined JUndefined (JNum (-3)%Z))))) eq_refl eq_refl).
Defined.

Example markOnline_negative_duration :
  Presence.post_markOnline (fun _ => None) (fun _ => None) (JNum (-3)%Z)
  = (Presence.Done,
     [Presence.Call (Presence.Announce Presence.Available None);
      Presence.RevertAfter (Some 0%Z) Presence.Unavailable None]).
Proof. reflexivity. Qed.

(** ** Destination normalisation, continued *)

Lemma only_digits_trim_start (s : string) : only_digits (trim_start s) = only_digits s.
Proof.
  induction s as [|c r IH]; [reflexivity|]. cbn [trim_start].
  destruct (is_space c) eqn:Hc; [|reflexivity].
  rewrite IH. cbn [only_digits].
  destruct (is_digit c) eqn:Hd; [|reflexivity].
  rewrite (digit_not_space _ Hd) in Hc. discriminate.
Qed.

Lemma only_digits_trim_end (s : string) : only_digits (trim_end s) = only_digits s.
Proof.
  induction s as [|c r IH]; [reflexivity|]. cbn [trim_end only_digits].
  rewrite <- IH.
  destruct (trim_end r) as [|d r'] eqn:Hr; [|reflexivity].
  destruct (is_space c) eqn:Hc; [|reflexivity].
  destruct (is_digit c) eqn:Hd; [|reflexivity].
  rewrite (digit_not_space _ Hd) in Hc. discriminate.
Qed.

(** X22. [toJid] does not depend on how a phone number is written: white
    space around the input is ignored, and two inputs without [@] that
    hold the same digits, whatever separators, signs or letters stand
    between them, give the same address, the digits followed by
    [@s.whatsapp.net]. *)
Theorem toJid_ignores_formatting (J : string -> string) (x y : string) :
  toJid J (JStr (trim x)) = toJid J (JStr x)
  /\ (includes "@" x = false -> includes "@" y = false ->
      only_digits x = only_digits y ->
      toJid J (JStr x) = toJid J (JStr y)
      /\ toJid J (JStr x) = only_digits x +:+ "@s.whatsapp.net").
Proof.
  unfold toJid. cbn [js_String]. split.
  - rewrite trim_trim. reflexivity.
  - intros Hx Hy Hsame.
    rewrite !includes_trim by reflexivity. rewrite Hx, Hy.
    unfold trim. rewrite !only_digits_trim_end, !only_digits_trim_start, Hsame.
    split; reflexivity.
Qed.

Lemma toJid_ignores_formatting_witness :
  toJid Library.normalizedUser (JStr "+226 70-00-00")
  = toJid Library.normalizedUser (JStr "(226) 700000").
Proof.
  exact (proj1 (proj2 (toJid_ignores_formatting Library.normalizedUser
    "+226 70-00-00" "(226) 700000") eq_refl eq_refl eq_refl)).
Defined.

(** ** The pairing-code variant *)

(** X23. [POST /sendMessage] of the pairing-code variant keeps no record:
    whatever the request and the engine do, the module state is left as it
    was.  The destination is built from the digits of [number] alone; a
    [number] that is not a string is answered with an error before the
    engine is asked; and when the engine returns no message key the answer
    is a 500 although the message has been handed to the engine. *)
Theorem sendMessage_pairing_keeps_nothing (E : collaborators)
    (body : option send_body) (s : server) :
  state_of (post_sendMessage_pairing E body s) = s
  /\ (forall b, body = Some b -> (forall n, b_number b <> JStr n) ->
        snd (post_sendMessage_pairing E body s) = []
        /\ is_sent (response_of (post_sendMessage_pairing E body s)) = false)
  /\ (forall b n, body = Some b -> b_number b = JStr n -> n <> "" ->
        truthy (b_message b) = true ->
        let jid := jidNormalizedUser E (only_digits n +:+ "@s.whatsapp.net") in
        snd (post_sendMessage_pairing E body s) = [EngineSend jid (CText (b_message b))]
        /\ (sock_sendMessage E jid (CText (b_message b)) = SendOk None ->
            response_of (post_sendMessage_pairing E body s) = ServerError TypeError)).
Proof.
  unfold post_sendMessage_pairing, handle, hbind, await_send, ret, throw,
    state_of, response_of.
  split; [|split].
  - destruct body as [b|]; [|reflexivity].
    destruct (_ || _); [reflexivity|].
    destruct (b_number b); try reflexivity.
    destruct (sock_sendMessage E _ _) as [m|[id|]]; reflexivity.
  - intros b -> Hnot.
    destruct (_ || _); [split; reflexivity|].
    destruct (b_number b) as [| |x|z|n]; try (split; reflexivity).
    destruct (Hnot n eq_refl).
  - intros b n -> Hn Hne Hm. cbn zeta. rewrite Hn, Hm. cbn [truthy].
    destruct (String.eqb_spec n "") as [|_]; [contradiction|]. cbn [negb orb].
    destruct (sock_sendMessage E _ _) as [m|[id|]]; cbn; split; try reflexivity;
      discriminate.
Qed.

Lemma sendMessage_pairing_keeps_nothing_witness :
  snd (post_sendMessage_pairing example_engine
         (Some {| b_number := JStr "+226 70"; b_jid := JStr "ignored@g.us";
                  b_message := JStr "hi"; b_delete := JBool true |})
         armed_example)
  = [EngineSend "22670@s.whatsapp.net" (CText (JStr "hi"))].
Proof.
  exact (proj1 (proj2 (proj2 (sendMessage_pairing_keeps_nothing example_engine
    (Some {| b_number := JStr "+226 70"; b_jid := JStr "ignored@g.us";
             b_message := JStr "hi"; b_delete := JBool true |}) armed_example))
    _ "+226 70" eq_refl eq_refl ltac:(discriminate) eq_refl)).
Defined.

(** ** What [POST /sendViewOnceMedia] asks of the outside world *)

Lemma viewOnce_effects (E : collaborators) (b : media_body) (s : server) :
  let l := snd (post_sendViewOnceMedia E (Some b) s) in
  Forall (fun e => viewOnce_allowed E b e = true) l
  /\ length (filter is_engine_send l) <= 1
  /\ length l <= 2
  /\ (forall id to, fst (fst (post_sendViewOnceMedia E (Some b) s)) = Sent id to ->
        to = destination E (m_number b) (m_jid b)
        /\ length (filter is_engine_send l) = 1).
Proof.
  cbn zeta. unfold post_sendViewOnceMedia. cbn [or_empty_media].
  unfold handle, hbind, ret, throw, modify.
  destruct (_ || _) eqn:Hvalid; [few_effects|].
  unfold load_media.
  destruct (truthy (m_mediaBase64 b)) eqn:H64.
  - destruct (m_mediaBase64 b) as [| |x|z|data] eqn:Hdata;
      unfold ret, throw; try few_effects.
    cbv beta iota zeta. classify_and_send.
  - destruct (truthy (m_mediaUrl b)) eqn:Hurl; [|discriminate Hvalid].
    unfold hbind, await_fetch.
    destruct (fetch E (m_mediaUrl b)) as [m|[] status bytes] eqn:Hfetch;
      unfold ret; cbv beta iota zeta; cbn [negb]; try few_effects.
    classify_and_send.
Qed.

(** [s.split(',').pop()] is the part of [s] after its last comma, and all
    of [s] when it has none. *)
Lemma after_last_comma_spec (s : string) :
  includes "," (after_last_comma s) = false
  /\ (s = after_last_comma s
      \/ exists prefix, s = prefix +:+ "," +:+ after_last_comma s).
Proof.
  induction s as [|c r [IHnone IHcut]]; [split; [reflexivity | left; reflexivity]|].
  cbn [after_last_comma].
  destruct (includes "," r) eqn:Hr.
  - split; [exact IHnone|]. right.
    destruct IHcut as [Hsame | [prefix Hcut]].
    + rewrite <- Hsame, Hr in IHnone. discriminate IHnone.
    + exists (String c prefix). exact (f_equal (String c) Hcut).
  - destruct (Ascii.eqb_spec c ",") as [->|Hc].
    + split; [exact Hr|]. right. exists "". reflexivity.
    + split; [|left; reflexivity].
      cbn [includes]. rewrite Hr, orb_false_r.
      apply Ascii.eqb_neq. exact Hc.
Qed.

(** X24. Whatever [POST /sendViewOnceMedia] requests is a download of
    [mediaUrl], only when the body has no base64 data, or a message to the
    normalised destination whose media is the text after the last comma of
    the base64 data when there is some, and the body of the successful
    answer to the download otherwise, sent as an image when the mimetype
    starts with [image/], as a video when it starts with [video/] and as a
    document in every other case, a missing mimetype included, with the
    caption and mimetype of the request.  The engine is asked at most
    once, and exactly once when the request is answered with a message
    identifier, for the destination the answer names; there are at most
    two requests in all, and a request answered 400 for missing fields
    asks nothing. *)
Theorem viewOnce_requests (E : collaborators) (body : option media_body) (s : server) :
  let b := or_empty_media body in
  let l := snd (post_sendViewOnceMedia E body s) in
  Forall (fun e => viewOnce_allowed E b e = true) l
  /\ length (filter is_engine_send l) <= 1
  /\ length l <= 2
  /\ (forall id to, response_of (post_sendViewOnceMedia E body s) = Sent id to ->
        to = destination E (m_number b) (m_jid b)
        /\ length (filter is_engine_send l) = 1)
  /\ (forall given,
        includes "," (after_last_comma given) = false
        /\ (given = after_last_comma given
            \/ exists prefix, given = prefix +:+ "," +:+ after_last_comma given))
  /\ ((truthy (m_mediaUrl b) = false /\ truthy (m_mediaBase64 b) = false)
      \/ (truthy (m_number b) = false /\ truthy (m_jid b) = false) ->
      post_sendViewOnceMedia E body s
      = (BadRequest "number/jid and media are required", s, [])).
Proof.
  cbn zeta.
  assert (Hsame : post_sendViewOnceMedia E body s
                  = post_sendViewOnceMedia E (Some (or_empty_media body)) s)
    by (destruct body; reflexivity).
  rewrite Hsame.
  destruct (viewOnce_effects E (or_empty_media body) s) as (Hall & Hsend & Hlen & Hsent).
  split; [exact Hall|]. split; [exact Hsend|]. split; [exact Hlen|].
  split; [exact Hsent|]. split; [exact after_last_comma_spec|].
  unfold post_sendViewOnceMedia, handle. cbn [or_empty_media].
  intros [[-> ->]|[-> ->]]; [reflexivity|].
  rewrite orb_true_r. reflexivity.
Qed.

Example viewOnce_requests_example :
  snd (post_sendViewOnceMedia example_engine
         (Some {| m_number := JStr "226700000"; m_jid := JUndefined;
                  m_caption := JStr "look"; m_mediaUrl := JStr "https://cdn.example/a.mp4";
                  m_mediaBase64 := JUndefined;
                  m_mimetype := JStr "video/mp4"; m_delete := JUndefined |})
         initial_server)
  = [HttpGet (JStr "https://cdn.example/a.mp4");
     EngineSend "226700000@s.whatsapp.net"
       (CVideo (FromUrl "bytes") (JStr "look") (JStr "video/mp4"))].
Proof. reflexivity. Qed.

Lemma viewOnce_requests_witness :
  post_sendViewOnceMedia example_engine
    (Some {| m_number := JStr "226700000"; m_jid := JUndefined;
             m_caption := JStr "look"; m_mediaUrl := JStr "";
             m_mediaBase64 := JUndefined;
             m_mimetype := JStr "image/png"; m_delete := JUndefined |})
    armed_example
  = (BadRequest "number/jid and media are required", armed_example, []).
Proof.
  apply (proj2 (proj2 (proj2 (proj2 (proj2
    (viewOnce_requests example_engine (Some _) armed_example)))))).
  left. split; reflexivity.
Defined.

(** ** Boot and failures of persistence *)

(** X25. [bootstrapSessionFile] never loses a local session: it replaces
    an existing file only by a non-empty session blob held by the
    database; when the query succeeds the file exists afterwards, created
    as [{}] if there was neither file nor blob; when the query throws the
    file is left as it was; and without a pool the database is not
    consulted at all. *)
Theorem bootstrap_keeps_local (pool up : bool) (table : gmap string string)
    (file : option string) :
  let file' := bootstrapSessionFile pool up table file in
  (forall content, file = Some content ->
     file' = Some content
     \/ exists blob, pool = true /\ up = true /\ table !! "session" = Some blob
                     /\ blob <> "" /\ file' = Some blob)
  /\ (is_Some (loadSessionFromDB pool up table) -> is_Some file')
  /\ (loadSessionFromDB pool up table = None -> file' = file)
  /\ (pool = false -> file' = Some (default "{}" file)).
Proof.
  cbn zeta. unfold bootstrapSessionFile, loadSessionFromDB.
  destruct pool; cbn [negb].
  - destruct up.
    + destruct (string_truthy (table !! "session")) as [blob|] eqn:Hblob.
      * apply string_truthy_nonempty in Hblob as [Hrow Hne].
        repeat split; eauto; try discriminate.
        intros content _. right. exists blob. auto.
      * repeat split; try discriminate.
        -- intros content ->. left. reflexivity.
        -- destruct file; eauto.
    + repeat split; try discriminate.
      * intros content ->. left. reflexivity.
      * intros [x Hx]. discriminate.
  - repeat split; try discriminate.
    + intros content ->. left. reflexivity.
    + destruct file; eauto.
    + destruct file; reflexivity.
Qed.

Lemma bootstrap_keeps_local_witness :
  bootstrapSessionFile false true {["session" := "{db}"]} (Some "{local}")
  = Some "{local}".
Proof.
  exact (proj2 (proj2 (proj2 (bootstrap_keeps_local false true
    {["session" := "{db}"]} (Some "{local}"))) ) eq_refl).
Defined.

(** X26. [saveStateAndDB] never lets a failure escape and stops at the
    first one: it always starts with the local write; it logs one error
    when a step fails and none otherwise; after a failed local write it
    neither reads the file back nor queries the database, and after a
    failed read-back it does not query the database. *)
Theorem save_stops_at_first_failure (pool : bool) (env : creds_env) :
  hd_error (saveStateAndDB pool env) = Some SaveCreds
  /\ length (filter is_error_log (saveStateAndDB pool env))
     = (if all_steps_ok pool env then 0 else 1)
  /\ (save_ok env = false ->
      saveStateAndDB pool env = [SaveCreds; ConsoleError "[Auth save error]"])
  /\ (save_ok env = true -> read_back env = None ->
      saveStateAndDB pool env
      = [SaveCreds; ReadSession; ConsoleError "[Auth save error]"]).
Proof.
  unfold saveStateAndDB, saveSessionToDB, all_steps_ok.
  destruct (save_ok env); cbn [andb].
  - destruct (read_back env) as [blob|].
    + rewrite bool_decide_eq_true_2 by eauto.
      destruct pool, (db_ok env); repeat split; discriminate.
    + rewrite bool_decide_eq_false_2 by (intros [x Hx]; discriminate).
      repeat split; discriminate.
  - repeat split. discriminate.
Qed.

Lemma save_stops_at_first_failure_witness :
  saveStateAndDB true
    {| save_ok := false; read_back := Some "{a}"; state_json := "{a}"; db_ok := true |}
  = [SaveCreds; ConsoleError "[Auth save error]"].
Proof.
  exact (proj1 (proj2 (proj2 (save_stops_at_first_failure true
    {| save_ok := false; read_back := Some "{a}"; state_json := "{a}"; db_ok := true |})))
    eq_refl).
Defined.

(** ** Connection updates emitted while an artifact is rendered *)

Lemma rendering_run_app (render : string -> option string)
    (xs ys : list Rendering.stretch) (st : Rendering.state) :
  Rendering.run render st (xs ++ ys)%list
  = let '(st1, l1) := Rendering.run render st xs in
    let '(st2, l2) := Rendering.run render st1 ys in
    (st2, (l1 ++ l2)%list).
Proof.
  revert st. induction xs as [|x rest IH]; intros st.
  - cbn. destruct (Rendering.run render st ys). reflexivity.
  - cbn [app Rendering.run].
    destruct (Rendering.step render st x) as [st1 l1].
    rewrite IH.
    destruct (Rendering.run render st1 rest) as [st2 l2].
    destruct (Rendering.run render st2 ys) as [st3 l3].
    rewrite app_assoc. reflexivity.
Qed.

Lemma rendering_turn (render : string -> option string) (u : update)
    (s : server) (n : nat) :
  exists n',
    Rendering.run render
      {| Rendering.module_state := s; Rendering.suspended := [];
         Rendering.unhandled := n |} (Rendering.turn u)
    = ({| Rendering.module_state := fst (on_connection_update render s u);
          Rendering.suspended := []; Rendering.unhandled := n' |},
       snd (on_connection_update render s u)).
Proof.
  unfold Rendering.turn, on_connection_update.
  destruct (string_truthy (u_qr u)) as [qr|] eqn:Hqr; cbn; rewrite Hqr; cbn.
  - destruct (render qr) as [url|]; cbn.
    + unfold Rendering.resume.
      destruct (on_connection u _) as [s' l]. cbn. rewrite app_nil_r. eauto.
    + eauto.
  - destruct (on_connection u s) as [s' l]. cbn. rewrite app_nil_r. eauto.
Qed.

Lemma rendering_in_turn (render : string -> option string) (us : list update)
    (s : server) (n : nat) :
  let st := {| Rendering.module_state := s; Rendering.suspended := [];
               Rendering.unhandled := n |} in
  Rendering.module_state (fst (Rendering.run render st (Rendering.in_turn us)))
  = run_updates render s us
  /\ Rendering.suspended (fst (Rendering.run render st (Rendering.in_turn us))) = []
  /\ snd (Rendering.run render st (Rendering.in_turn us))
     = effects_of_updates render s us.
Proof.
  cbn zeta. revert s n.
  induction us as [|u rest IH]; intros s n; [repeat split|].
  change (Rendering.in_turn (u :: rest))
    with (Rendering.turn u ++ Rendering.in_turn rest)%list.
  rewrite rendering_run_app.
  destruct (rendering_turn render u s n) as [n' ->].
  specialize (IH (fst (on_connection_update render s u)) n').
  destruct (Rendering.run render _ (Rendering.in_turn rest)) as [st2 l2].
  cbn [fst snd] in *. destruct IH as (-> & -> & ->).
  repeat split.
Qed.

(** X28. When every rendering of an artifact settles before the engine
    emits its next update, the handler of the full server, run in its two
    stretches around the [await], leaves the module state and requests the
    effects that [on_connection_update] gives for the same updates, and no
    invocation stays suspended. *)
Theorem rendering_in_turn_agrees (render : string -> option string)
    (s : server) (us : list update) :
  let final := Rendering.run render (Rendering.start s) (Rendering.in_turn us) in
  Rendering.module_state (fst final) = run_updates render s us
  /\ Rendering.suspended (fst final) = []
  /\ snd final = effects_of_updates render s us.
Proof. apply rendering_in_turn. Qed.

Lemma emitted_during_rendering (render : string -> option string)
    (during : list update) (st : Rendering.state) :
  Forall (fun v => string_truthy (u_qr v) = None) during ->
  let st' := fst (Rendering.run render st (map Rendering.Emit during)) in
  Rendering.suspended st' = Rendering.suspended st
  /\ Rendering.unhandled st' = Rendering.unhandled st
  /\ latestQRDataURL (Rendering.module_state st')
     = latestQRDataURL (Rendering.module_state st)
  /\ sentStore (Rendering.module_state st') = sentStore (Rendering.module_state st)
  /\ deleteOnDelivery (Rendering.module_state st')
     = deleteOnDelivery (Rendering.module_state st).
Proof.
  cbn zeta. revert st.
  induction during as [|v rest IH]; intros st Hduring; [repeat split|].
  inversion Hduring as [|? ? Hv Hrest]; subst.
  cbn [map Rendering.run Rendering.step]. rewrite Hv.
  destruct (on_connection v (Rendering.module_state st)) as [s' l] eqn:Hstep.
  specialize (IH {| Rendering.module_state := s';
                    Rendering.suspended := Rendering.suspended st;
                    Rendering.unhandled := Rendering.unhandled st |} Hrest).
  destruct (Rendering.run render _ _) as [st2 l2]. cbn [fst snd] in *.
  destruct IH as (-> & -> & -> & -> & ->). cbn.
  assert (Hs' : s' = fst (on_connection v (Rendering.module_state st)))
    by (rewrite Hstep; reflexivity).
  rewrite Hs'. unfold on_connection.
  destruct (u_connection v) as [[]|]; repeat split.
Qed.

(** X29. Updates emitted while an artifact is rendered are overwritten in
    the full server: when the engine emits an update with a pairing
    artifact and no connection field, then any updates without artifact,
    an [open] among them or not, and the rendering settles only after
    them, the handler resumes with its writes and the server ends
    unauthenticated and [connecting], holding the new artifact, which
    [GET /auth] shows; sent store and flag set are untouched.  Had the
    rendering settled first, a closing [open] would have left the server
    authenticated. *)
Theorem emitted_during_rendering_overwritten (render : string -> option string)
    (s : server) (u : update) (qr url : string) (during : list update) :
  string_truthy (u_qr u) = Some qr ->
  render qr = Some url ->
  u_connection u = None ->
  Forall (fun v => string_truthy (u_qr v) = None) during ->
  let overlapped :=
    Rendering.run render (Rendering.start s)
      (Rendering.Emit u :: map Rendering.Emit during ++ [Rendering.Settle 0])%list in
  let s' := Rendering.module_state (fst overlapped) in
  connectionState s' = {| authenticated := false; connection := Connecting |}
  /\ latestQRDataURL s' = Some url
  /\ get_auth s' = AuthPending (Some url)
  /\ sentStore s' = sentStore s /\ deleteOnDelivery s' = deleteOnDelivery s
  /\ Rendering.suspended (fst overlapped) = []
  /\ (forall before v, during = (before ++ [v])%list -> u_connection v = Some Open ->
        connectionState (run_updates render s (u :: during))
        = {| authenticated := true; connection := Open |}).
Proof.
  intros Hqr Hurl Hnone Hduring. cbn zeta.
  cbn [Rendering.run Rendering.step Rendering.start Rendering.suspended
       Rendering.module_state Rendering.unhandled app].
  rewrite Hqr, rendering_run_app.
  pose proof (emitted_during_rendering render during
    {| Rendering.module_state := s; Rendering.suspended := [(qr, u)];
       Rendering.unhandled := 0 |} Hduring) as Hkept.
  cbn zeta in Hkept.
  destruct (Rendering.run render _ (map Rendering.Emit during)) as [st1 l1].
  cbn [fst snd Rendering.suspended Rendering.module_state Rendering.unhandled] in Hkept.
  destruct Hkept as (Hsusp & _ & Hartifact & Hstore & Hflags).
  cbn [Rendering.run Rendering.step]. rewrite Hsusp.
  cbn [lookup list_lookup]. rewrite Hurl.
  unfold Rendering.resume, on_connection. rewrite Hnone.
  cbn. repeat split; try assumption.
  intros before v -> Hopen.
  assert (Hv : string_truthy (u_qr v) = None).
  { apply Forall_app in Hduring as [_ Hlast].
    inversion Hlast; subst; assumption. }
  rewrite fold_left_app. cbn [fold_left].
  generalize (fold_left (fun s0 u0 => fst (on_connection_update render s0 u0))
                before (fst (on_connection_update render s u))).
  intros s0. unfold on_connection_update. rewrite Hv.
  unfold on_connection. rewrite Hopen. reflexivity.
Qed.

Lemma emitted_during_rendering_overwritten_witness :
  get_auth
    (Rendering.module_state (fst
       (Rendering.run render_example (Rendering.start initial_server)
          [Rendering.Emit (qr_update "abc"); Rendering.Emit open_update;
           Rendering.Settle 0])))
  = AuthPending (Some "data:image/png;base64,abc").
Proof.
  refine (proj1 (proj2 (proj2 (emitted_during_rendering_overwritten render_example
    initial_server (qr_update "abc") "abc" "data:image/png;base64,abc"
    [open_update] eq_refl eq_refl eq_refl _)))).
  repeat constructor.
Defined.
